(** * ykman/cli/oath.py: session unlocking, credential search, code
      resolution and credential admission

    A shallow embedding of the command-line front end of the OATH
    application of yubikey-manager, and the properties of it that the
    specification states.

    Python values are modelled as follows.
    - [str] is a sequence of Unicode code points, [bytes] a sequence of
      octets; [bytes.decode("utf-8")] is the strict decoder, which fails on
      ill-formed input.
    - A version is a triple of integers compared lexicographically, as
      Python compares tuples.
    - Exceptions are values of [Exn]; a command is a function from the state
      of the world to a result and a new state, so that what happened before
      an exception was raised is kept.
    - The OATH session, the helpers imported from other modules of the
      package and the person at the terminal are the fields of the class
      [Externals]; every theorem holds for every instance of it. *)

From stdpp Require Import base option list gmap strings.
From Stdlib Require Import ZArith NArith Strings.Byte Lia DecimalString.

Local Open Scope Z_scope.

(** ** Python text and bytes *)

Definition bytes := list byte.
Definition str := list N.

#[global] Instance byte_eq_decision : EqDecision byte := byte_eq_dec.

(** A literal of the source, as bytes and as text (ASCII literals only). *)
Definition as_bytes (s : string) : bytes := String.list_byte_of_string s.
Definition as_str (s : string) : str := map Byte.to_N (String.list_byte_of_string s).

(** [len(s)] *)
Definition len {A} (s : list A) : Z := Z.of_nat (length s).

(** [s.startswith(p)] on bytes *)
Fixpoint startswith (s p : bytes) : bool :=
  match p, s with
  | [], _ => true
  | _ :: _, [] => false
  | y :: p', x :: s' => bool_decide (x = y) && startswith s' p'
  end.

(** [p] at the head of [s], on text *)
Fixpoint str_startswith (s p : str) : bool :=
  match p, s with
  | [], _ => true
  | _ :: _, [] => false
  | y :: p', x :: s' => bool_decide (x = y) && str_startswith s' p'
  end.

(** [needle in hay] on text: [needle] occurs as a contiguous run *)
Fixpoint str_in (needle hay : str) : bool :=
  str_startswith hay needle ||
  match hay with
  | [] => false
  | _ :: hay' => str_in needle hay'
  end.

(** *** UTF-8 *)

Definition continuation (x : byte) : option N :=
  let n := Byte.to_N x in
  if (N.leb 128 n && N.ltb n 192)%bool then Some (n - 128)%N else None.

(** [bs.decode("utf-8")]: [None] stands for [UnicodeDecodeError].  Overlong
    forms, surrogates and values above U+10FFFF are rejected. *)
Fixpoint decode_utf8 (bs : bytes) : option str :=
  match bs with
  | [] => Some []
  | x0 :: t0 =>
    let n0 := Byte.to_N x0 in
    if N.ltb n0 128 then cons n0 <$> decode_utf8 t0
    else if (N.leb 192 n0 && N.ltb n0 224)%bool then
      match t0 with
      | x1 :: t1 =>
        match continuation x1 with
        | Some c1 =>
          let cp := ((n0 - 192) * 64 + c1)%N in
          if N.leb 128 cp then cons cp <$> decode_utf8 t1 else None
        | None => None
        end
      | _ => None
      end
    else if (N.leb 224 n0 && N.ltb n0 240)%bool then
      match t0 with
      | x1 :: x2 :: t2 =>
        match continuation x1, continuation x2 with
        | Some c1, Some c2 =>
          let cp := ((n0 - 224) * 4096 + c1 * 64 + c2)%N in
          if (N.leb 2048 cp && negb (N.leb 55296 cp && N.leb cp 57343))%bool
          then cons cp <$> decode_utf8 t2 else None
        | _, _ => None
        end
      | _ => None
      end
    else if (N.leb 240 n0 && N.ltb n0 248)%bool then
      match t0 with
      | x1 :: x2 :: x3 :: t3 =>
        match continuation x1, continuation x2, continuation x3 with
        | Some c1, Some c2, Some c3 =>
          let cp := ((n0 - 240) * 262144 + c1 * 4096 + c2 * 64 + c3)%N in
          if (N.leb 65536 cp && N.leb cp 1114111)%bool
          then cons cp <$> decode_utf8 t3 else None
        | _, _, _ => None
        end
      | _ => None
      end
    else None
  end.

Definition byte_of (n : N) : byte :=
  match Byte.of_N n with Some x => x | None => x00 end.

(** The octets of one code point; [None] stands for [UnicodeEncodeError]
    (a surrogate, or a value that is no code point). *)
Definition encode_cp (c : N) : option bytes :=
  if N.ltb c 128 then Some [byte_of c]
  else if N.ltb c 2048 then
    Some [byte_of (192 + c / 64); byte_of (128 + c mod 64)]%N
  else if (N.leb 55296 c && N.leb c 57343)%bool then None
  else if N.ltb c 65536 then
    Some [byte_of (224 + c / 4096); byte_of (128 + (c / 64) mod 64);
          byte_of (128 + c mod 64)]%N
  else if N.leb c 1114111 then
    Some [byte_of (240 + c / 262144); byte_of (128 + (c / 4096) mod 64);
          byte_of (128 + (c / 64) mod 64); byte_of (128 + c mod 64)]%N
  else None.

(** [s.encode("utf-8")] *)
Fixpoint encode_utf8 (s : str) : option bytes :=
  match s with
  | [] => Some []
  | c :: s' =>
    match encode_cp c, encode_utf8 s' with
    | Some x, Some y => Some (x ++ y)
    | _, _ => None
    end
  end.

(** *** Hexadecimal text: [bytes.hex()] and [bytes.fromhex(s)] *)

Definition hex_digit (n : N) : N :=
  if N.ltb n 10 then (48 + n)%N else (87 + n)%N.

Definition hex (bs : bytes) : str :=
  flat_map (fun x => let n := Byte.to_N x in
                     [hex_digit (n / 16); hex_digit (n mod 16)]%N) bs.

Definition hex_value (c : N) : option N :=
  if (N.leb 48 c && N.leb c 57)%bool then Some (c - 48)%N
  else if (N.leb 97 c && N.leb c 102)%bool then Some (c - 87)%N
  else if (N.leb 65 c && N.leb c 70)%bool then Some (c - 55)%N
  else None.

Definition ascii_space (c : N) : bool :=
  (N.eqb c 32 || (N.leb 9 c && N.leb c 13))%bool.

(** [None] stands for [ValueError]. *)
Fixpoint fromhex (s : str) : option bytes :=
  match s with
  | [] => Some []
  | c :: t =>
    if ascii_space c then fromhex t
    else
      match hex_value c, t with
      | Some h, d :: t' =>
        match hex_value d with
        | Some l => cons (byte_of (h * 16 + l)) <$> fromhex t'
        | None => None
        end
      | _, _ => None
      end
  end.

(** ** Versions *)

Definition Version : Type := Z * Z * Z.

(** [a < b] on tuples of three integers *)
Definition version_lt (a c : Version) : bool :=
  let '(a1, a2, a3) := a in
  let '(c1, c2, c3) := c in
  if Z.eqb a1 c1 then
    if Z.eqb a2 c2 then Z.ltb a3 c3 else Z.ltb a2 c2
  else Z.ltb a1 c1.

Arguments version_lt : simpl never.

(** ** The data of yubikit.oath

    The classes are declared outside this file; the records have the fields
    that the source reads, at the types it uses them at. *)

Inductive OATH_TYPE := HOTP | TOTP.
Inductive HASH_ALGORITHM := SHA1 | SHA256 | SHA512.

#[global] Instance OATH_TYPE_eq_dec : EqDecision OATH_TYPE.
Proof. solve_decision. Defined.
#[global] Instance HASH_ALGORITHM_eq_dec : EqDecision HASH_ALGORITHM.
Proof. solve_decision. Defined.

(** A credential as the device lists it.  The id is bytes: the source
    decodes it for display and compares it with CredentialData.get_id(). *)
Record Credential := {
  cred_device_id : str;
  id : bytes;
  issuer : option str;
  name : str;
  oath_type : OATH_TYPE;
  period : Z;
  touch_required : option bool
}.

#[global] Instance Credential_eq_dec : EqDecision Credential.
Proof. solve_decision. Defined.

(** A credential as the user enters it.  The name is text (it is a
    command-line argument or a part of the URI), the secret is bytes. *)
Record CredentialData := {
  data_name : str;
  data_oath_type : OATH_TYPE;
  hash_algorithm : HASH_ALGORITHM;
  secret : bytes;
  digits : Z;
  data_period : Z;
  counter : Z;
  data_issuer : option str
}.

Record Code := {
  value : str;
  valid_from : Z;
  valid_to : Z
}.

(** ** Exceptions *)

(** The status words the source names; [SW_other] is any other one. *)
Inductive SW :=
| NO_SPACE
| COMMAND_ABORTED
| SECURITY_CONDITION_NOT_SATISFIED
| FILE_NOT_FOUND
| SW_other (code : Z).

#[global] Instance SW_eq_dec : EqDecision SW.
Proof. solve_decision. Defined.

Inductive Exn :=
| UsageError (msg : string)       (* raised by ctx.fail(msg) *)
| Exit (status : Z)               (* raised by ctx.exit(status) *)
| Abort                           (* raised by click.confirm(abort=True) *)
| ApduError (sw : SW)
| UnicodeDecodeError
| ValueError
| OtherException (what : string).

Inductive Result (A : Type) :=
| Ok (a : A)
| Raise (e : Exn).
Arguments Ok {A} a.
Arguments Raise {A} e.

(** The error kinds of the specification, as the source reports them. *)
Definition AuthenticationFailed : Exn :=
  UsageError "Authentication to the YubiKey failed. Wrong password?".
Definition UnexpectedPassword : Exn :=
  UsageError "Password provided, but no password is set.".
Definition InvalidName : Exn :=
  UsageError "Name must be between 1 and 64 bytes.".
Definition SecretTooShort : Exn :=
  UsageError "Secret must be at least 2 bytes.".
Definition UnsupportedTouch : Exn :=
  UsageError "Touch-required credentials not supported on this key.".
Definition CounterNotApplicable : Exn :=
  UsageError "Counter only supported for HOTP credentials.".
Definition UnsupportedAlgorithm : Exn :=
  UsageError "Algorithm SHA512 not supported on this YubiKey.".
Definition UnsafeOverwriteName : Exn :=
  UsageError "Choose a name that is not a subset of an existing credential.".
Definition StorageFull : Exn :=
  UsageError "No space left on the YubiKey for OATH credentials.".
Definition StorageFullAborted : Exn :=
  UsageError "The command failed. Is there enough space on the YubiKey?".
Definition TouchTimeout : Exn :=
  UsageError "Touch credential timed out!".
Definition Aborted : Exn := Abort.
Definition NoMatch : Exn :=
  UsageError "No matching credential found.".
Definition MultipleMatches : Exn := Exit 1.

(** ** What the module imports and whom it talks to *)

Class Externals := {
  (** yubikit.oath.OathSession: the state of the device and its methods.
      A method that raises leaves the device as it was. *)
  Device : Type;
  version : Device -> Version;
  locked : Device -> bool;
  device_id : Device -> str;
  list_credentials : Device -> list Credential;
  derive_key : Device -> str -> bytes;
  validate : Device -> bytes -> Result Device;
  put_credential : Device -> CredentialData -> bool -> Result Device;
  delete_credential : Device -> bytes -> Device;
  calculate_all : Device -> list (Credential * option Code);
  calculate_code : Device -> Credential -> Result (Code * Device);
  (** yubikit.oath.CredentialData.get_id *)
  get_id : CredentialData -> bytes;
  (** ykman.oath *)
  is_hidden : Credential -> bool;
  is_steam : Credential -> bool;
  calculate_steam : Device -> Credential -> str;
  (** ykman.device *)
  is_fips_version : Version -> bool;
  (** str.lower, which maps the empty text to itself, and sorted *)
  lower : str -> str;
  lower_empty : lower [] = [];
  sorted : list Credential -> list Credential;
  (** ykman.settings.Settings.write: [Some e] when writing the file raises *)
  settings_write : option (gmap str str) -> option Exn;
  (** the person at the terminal, by the text of the question *)
  click_prompt : string -> str;
  click_confirm : string -> list str -> bool
}.

(** What the program does that can be observed from outside. *)
Inductive Event :=
| echo (text : string) (args : list str)
| echo_err (text : string) (args : list str)
| asked (text : string) (args : list str)
| prompt_for_touch
| prompt_timeout
| called_derive_key (password : str)
| called_validate (key : bytes)
| called_put_credential (data : CredentialData) (touch : bool)
| called_delete_credential (cred_id : bytes)
| called_calculate_all
| called_calculate_code (cred : Credential)
| called_calculate_steam (cred : Credential)
| called_settings_write.

(** ** A device to run the program on

    A small device with the helpers as the package defines them for plain
    cases: the id of a credential of the default period is the UTF-8 form
    of [issuer:name] or of [name]; a credential is hidden when its issuer is
    [_hidden]; firmware 4.4.x is the FIPS series; lower-casing acts on the
    ASCII letters. *)

Record Yubikey := {
  firmware : Version;
  access_key : option bytes;
  stored : list Credential;
  capacity : nat;
  batch : list (Credential * option Code);
  calculated : Result Code
}.

Definition demo_device_id : str := as_str "c2lnbmF0dXJl".

Definition demo_get_id (data : CredentialData) : bytes :=
  default []
    (encode_utf8
       match data_issuer data with
       | Some i => i ++ as_str ":" ++ data_name data
       | None => data_name data
       end).

Definition demo_put (d : Yubikey) (data : CredentialData) (touch : bool)
    : Result Yubikey :=
  let fresh :=
    {| cred_device_id := demo_device_id; id := demo_get_id data;
       issuer := data_issuer data; name := data_name data;
       oath_type := data_oath_type data; period := data_period data;
       touch_required := Some touch |} in
  let others :=
    List.filter (fun c => negb (bool_decide (id c = demo_get_id data))) (stored d) in
  if Nat.ltb (length others) (capacity d) then
    Ok {| firmware := firmware d; access_key := access_key d;
          stored := others ++ [fresh]; capacity := capacity d;
          batch := batch d; calculated := calculated d |}
  else Raise (ApduError NO_SPACE).

Definition demo_delete (d : Yubikey) (cred_id : bytes) : Yubikey :=
  {| firmware := firmware d; access_key := access_key d;
     stored := List.filter (fun c => negb (bool_decide (id c = cred_id))) (stored d);
     capacity := capacity d; batch := batch d; calculated := calculated d |}.

Definition demo_lower (s : str) : str :=
  map (fun c => if (N.leb 65 c && N.leb c 90)%bool then (c + 32)%N else c) s.

Definition demo_externals (answer : bool) : Externals := {|
  Device := Yubikey;
  version := firmware;
  locked := fun d => bool_decide (access_key d ≠ None);
  device_id := fun _ => demo_device_id;
  list_credentials := stored;
  derive_key := fun _ password => default [] (encode_utf8 password);
  validate := fun d key =>
    if bool_decide (access_key d = Some key) then Ok d
    else Raise (ApduError (SW_other 0x6A80));
  put_credential := demo_put;
  delete_credential := demo_delete;
  calculate_all := batch;
  calculate_code := fun d _ =>
    match calculated d with
    | Ok c => Ok (c, d)
    | Raise e => Raise e
    end;
  get_id := demo_get_id;
  is_hidden := fun c => bool_decide (issuer c = Some (as_str "_hidden"));
  is_steam := fun c =>
    bool_decide (oath_type c = TOTP) && bool_decide (issuer c = Some (as_str "Steam"));
  calculate_steam := fun _ _ => as_str "2BCDF";
  is_fips_version := fun v =>
    negb (version_lt v (4, 4, 0)) && version_lt v (4, 5, 0);
  lower := demo_lower;
  lower_empty := eq_refl;
  sorted := fun creds => creds;
  settings_write := fun _ => None;
  click_prompt := fun _ => as_str "correct horse";
  click_confirm := fun _ _ => answer
|}.

(** A stored credential and a candidate with the given issuer and name. *)
Definition demo_cred (i : option str) (n : str) (t : OATH_TYPE) : Credential :=
  {| cred_device_id := demo_device_id;
     id := default [] (encode_utf8 match i with Some x => x ++ as_str ":" ++ n | None => n end);
     issuer := i; name := n; oath_type := t; period := 30;
     touch_required := Some false |}.

Definition demo_data (n : str) (t : OATH_TYPE) (h : HASH_ALGORITHM)
    (key : bytes) (c : Z) : CredentialData :=
  {| data_name := n; data_oath_type := t; hash_algorithm := h; secret := key;
     digits := 6; data_period := 30; counter := c; data_issuer := None |}.

Definition demo_yubikey (v : Version) (creds : list Credential) : Yubikey :=
  {| firmware := v; access_key := None; stored := creds; capacity := 32;
     batch := map (fun c => (c, None)) creds;
     calculated := Ok {| value := as_str "123456"; valid_from := 0; valid_to := 30 |} |}.

Module Oath.
Section Program.
Context `{E : Externals}.

(** [session] is ctx.obj["session"]; [keys] is settings["keys"] when the
    settings have that entry, [disk] what the settings file holds of it. *)
Record World := {
  session : Device;
  keys : option (gmap str str);
  disk : option (gmap str str);
  log : list Event
}.

Definition M (A : Type) : Type := World -> Result A * World.

Definition ret {A} (a : A) : M A := fun w => (Ok a, w).

Definition bind {A B} (m : M A) (k : A -> M B) : M B :=
  fun w =>
    match m w with
    | (Ok a, w') => k a w'
    | (Raise e, w') => (Raise e, w')
    end.

Definition raise {A} (e : Exn) : M A := fun w => (Raise e, w).

(** try: [m] except Exception as e: [h e] *)
Definition try_except {A} (m : M A) (h : Exn -> M A) : M A :=
  fun w =>
    match m w with
    | (Ok a, w') => (Ok a, w')
    | (Raise e, w') => h e w'
    end.

Definition lift {A} (r : Result A) : M A := fun w => (r, w).

Definition or_raise {A} (o : option A) (e : Exn) : Result A :=
  match o with Some a => Ok a | None => Raise e end.

Definition emit (ev : Event) : M unit :=
  fun w => (Ok tt, {| session := session w; keys := keys w;
                      disk := disk w; log := log w ++ [ev] |}).

Definition get_session : M Device := fun w => (Ok (session w), w).

Definition set_session (d : Device) : M unit :=
  fun w => (Ok tt, {| session := d; keys := keys w;
                      disk := disk w; log := log w |}).

Definition when (c : bool) (m : M unit) : M unit := if c then m else ret tt.

#[global] Instance M_ret : MRet M := @ret.
#[global] Instance M_bind : MBind M := fun A B k m => bind m k.

(** Python's test of a value: an absent or empty text counts as false, an
    absent flag as false, the integer 0 as false. *)
Definition given (password : option str) : bool :=
  match password with
  | Some (_ :: _) => true
  | _ => false
  end.

Definition is_true (flag : option bool) : bool :=
  match flag with
  | Some true => true
  | _ => false
  end.

Definition nonzero (n : Z) : bool := negb (Z.eqb n 0).

(** ctx.fail and ctx.exit *)
Definition ctx_fail {A} (msg : string) : M A := raise (UsageError msg).
Definition ctx_exit {A} (status : Z) : M A := raise (Exit status).

(** settings.setdefault("keys", {}) *)
Definition setdefault_keys : M (gmap str str) :=
  fun w =>
    match keys w with
    | Some ks => (Ok ks, w)
    | None => (Ok ∅, {| session := session w; keys := Some ∅;
                        disk := disk w; log := log w |})
    end.

(** keys[device_id] = value, on the mapping that the settings hold *)
Definition keys_setitem (device : str) (value : str) : M unit :=
  fun w =>
    (Ok tt, {| session := session w;
               keys := Some (<[device := value]> (default ∅ (keys w)));
               disk := disk w; log := log w |}).

(** settings.write() *)
Definition write_settings : M unit :=
  fun w =>
    match settings_write (keys w) with
    | Some e => (Raise e, w)
    | None => (Ok tt, {| session := session w; keys := keys w;
                         disk := keys w;
                         log := log w ++ [called_settings_write] |})
    end.

(** session.derive_key(password) *)
Definition session_derive_key (password : str) : M bytes :=
  d ← get_session;
  emit (called_derive_key password);;
  ret (derive_key d password).

(** session.validate(key) *)
Definition session_validate (key : bytes) : M unit :=
  d ← get_session;
  emit (called_validate key);;
  d' ← lift (validate d key);
  set_session d'.

(** session.put_credential(data, touch) *)
Definition session_put_credential (data : CredentialData) (touch : bool)
  : M unit :=
  d ← get_session;
  emit (called_put_credential data touch);;
  d' ← lift (put_credential d data touch);
  set_session d'.

(** session.delete_credential(cred_id) *)
Definition session_delete_credential (cred_id : bytes) : M unit :=
  d ← get_session;
  emit (called_delete_credential cred_id);;
  set_session (delete_credential d cred_id).

(** session.calculate_all() *)
Definition session_calculate_all : M (list (Credential * option Code)) :=
  d ← get_session;
  emit called_calculate_all;;
  ret (calculate_all d).

(** session.calculate_code(cred) *)
Definition session_calculate_code (cred : Credential) : M Code :=
  d ← get_session;
  emit (called_calculate_code cred);;
  r ← lift (calculate_code d cred);
  set_session r.2;;
  ret r.1.

(** calculate_steam(session, cred) *)
Definition session_calculate_steam (cred : Credential) : M str :=
  d ← get_session;
  emit (called_calculate_steam cred);;
  ret (calculate_steam d cred).

(** click_prompt(text, hide_input=True) and click.confirm(text) *)
Definition prompt (text : string) : M str :=
  emit (asked text []);;
  ret (click_prompt text).

Definition confirm (text : string) (args : list str) : M bool :=
  emit (asked text args);;
  ret (click_confirm text args).

(** *** _validate and _init_session *)

Definition _validate (key : bytes) (remember : bool) : M unit :=
  try_except
    (session_validate key;;
     when remember
       (d ← get_session;
        setdefault_keys;;
        keys_setitem (device_id d) (hex key);;
        write_settings;;
        emit (echo "Password remembered." [])))
    (fun _ => ctx_fail "Authentication to the YubiKey failed. Wrong password?").

Definition _init_session (password : option str) (remember : bool)
    (prompt_text : string) : M unit :=
  d ← get_session;
  ks ← setdefault_keys;
  let dev_id := device_id d in
  if locked d then
    key ← (if given password then session_derive_key (default [] password)
           else
             match ks !! dev_id with
             | Some remembered => lift (or_raise (fromhex remembered) ValueError)
             | None => typed ← prompt prompt_text; session_derive_key typed
             end);
    _validate key remember
  else if given password then
    ctx_fail "Password provided, but no password is set."
  else ret tt.

(** *** _string_id, _error_multiple_hits and _search *)

Definition _string_id (credential : Credential) : Result str :=
  or_raise (decode_utf8 (id credential)) UnicodeDecodeError.

(** for cred in hits: click.echo(_string_id(cred), err=True) *)
Fixpoint echo_ids (hits : list Credential) : M unit :=
  match hits with
  | [] => ret tt
  | cred :: rest =>
    shown ← lift (_string_id cred);
    emit (echo_err "{}" [shown]);;
    echo_ids rest
  end.

Definition _error_multiple_hits {A} (hits : list Credential) : M A :=
  emit (echo_err "Error: Multiple matches, please make the query more specific." []);;
  emit (echo_err EmptyString []);;
  echo_ids hits;;
  ctx_exit 1.

(** The loop of _search, with the list [hits] built so far. *)
Fixpoint _search_loop (hits creds : list Credential) (query : str)
    (show_hidden : bool) : Result (list Credential) :=
  match creds with
  | [] => Ok hits
  | c :: rest =>
    match _string_id c with
    | Raise e => Raise e
    | Ok cred_id =>
      if negb show_hidden && is_hidden c then
        _search_loop hits rest query show_hidden
      else if bool_decide (cred_id = query) then Ok [c]
      else if str_in (lower query) (lower cred_id) then
        _search_loop (hits ++ [c]) rest query show_hidden
      else _search_loop hits rest query show_hidden
    end
  end.

Definition _search (creds : list Credential) (query : str)
    (show_hidden : bool) : Result (list Credential) :=
  _search_loop [] creds query show_hidden.

(** *** _add_cred *)

Definition _add_cred (data : CredentialData) (touch force : bool) : M unit :=
  d ← get_session;
  let v := version d in
  when (negb (Z.ltb 0 (len (data_name data)) && Z.leb (len (data_name data)) 64))
    (ctx_fail "Name must be between 1 and 64 bytes.");;
  when (Z.ltb (len (secret data)) 2)
    (ctx_fail "Secret must be at least 2 bytes.");;
  when (touch && version_lt v (4, 2, 6))
    (ctx_fail "Touch-required credentials not supported on this key.");;
  when (nonzero (counter data) && negb (bool_decide (data_oath_type data = HOTP)))
    (ctx_fail "Counter only supported for HOTP credentials.");;
  when (bool_decide (hash_algorithm data = SHA512)
        && (version_lt v (4, 3, 1) || is_fips_version v))
    (ctx_fail "Algorithm SHA512 not supported on this YubiKey.");;
  let creds := list_credentials d in
  let cred_id := get_id data in
  when (negb force && existsb (fun cred => bool_decide (id cred = cred_id)) creds)
    (yes ← confirm "A credential called {} already exists on this YubiKey. Do you want to overwrite it?"
                   [data_name data];
     if yes : bool then ret tt else raise Abort);;
  let firmware_overwrite_issue :=
    version_lt (4, 0, 0) v && version_lt v (4, 3, 5) in
  let cred_is_subset :=
    existsb (fun cred => startswith (id cred) cred_id
                         && negb (bool_decide (id cred = cred_id))) creds in
  when (firmware_overwrite_issue && cred_is_subset)
    (ctx_fail "Choose a name that is not a subset of an existing credential.");;
  try_except (session_put_credential data touch)
    (fun e =>
       match e with
       | ApduError sw =>
         if bool_decide (sw = NO_SPACE) then
           ctx_fail "No space left on the YubiKey for OATH credentials."
         else if bool_decide (sw = COMMAND_ABORTED) then
           ctx_fail "The command failed. Is there enough space on the YubiKey?"
         else raise e
       | _ => raise e
       end).

(** *** The code command *)

(** entries[cred] and entries[cred] = code, on the mapping that
    calculate_all returned (its keys in the order of the mapping) *)
Fixpoint getitem (entries : list (Credential * option Code))
    (cred : Credential) : Result (option Code) :=
  match entries with
  | [] => Raise (OtherException "KeyError")
  | (k, v) :: rest =>
    if bool_decide (k = cred) then Ok v else getitem rest cred
  end.

Fixpoint setitem (entries : list (Credential * option Code))
    (cred : Credential) (code : option Code)
    : list (Credential * option Code) :=
  match entries with
  | [] => [(cred, code)]
  | (k, v) :: rest =>
    if bool_decide (k = cred) then (k, code) :: rest
    else (k, v) :: setitem rest cred code
  end.

(** What code() does with a single hit (the branch len(creds) == 1): the
    value left in the variable [code], which is also stored back into
    [entries].  The specification calls this step resolve.  [precomputed]
    is entries[cred]. *)
Definition resolve (cred : Credential) (precomputed : option Code)
    : M (option Code) :=
  when (is_true (touch_required cred)) (emit prompt_for_touch);;
  try_except
    (if bool_decide (oath_type cred = HOTP) then
       emit prompt_timeout;;
       c ← session_calculate_code cred;
       ret (Some c)
     else
       match precomputed with
       | None => c ← session_calculate_code cred; ret (Some c)
       | Some _ => ret precomputed
       end)
    (fun e =>
       match e with
       | ApduError sw =>
         if bool_decide (sw = SECURITY_CONDITION_NOT_SATISFIED) then
           ctx_fail "Touch credential timed out!"
         else ret precomputed
       | _ => raise e
       end).

(** The rows of the listing: for cred in sorted(creds) *)
Fixpoint rows (entries : list (Credential * option Code))
    (creds : list Credential) : M (list (str * str)) :=
  match creds with
  | [] => ret []
  | cred :: rest =>
    code ← lift (getitem entries cred);
    let shown :=
      match code with
      | Some c => value c
      | None =>
        if is_true (touch_required cred) then as_str "[Touch Credential]"
        else if bool_decide (oath_type cred = HOTP) then as_str "[HOTP Credential]"
        else []
      end in
    shown ← (if is_steam cred then session_calculate_steam cred else ret shown);
    ident ← lift (_string_id cred);
    others ← rows entries rest;
    ret ((ident, shown) :: others)
  end.

(** for name, result in outputs: click.echo(format_str.format(name, result));
    the widths of the two columns are left out of the event. *)
Fixpoint echo_rows (outputs : list (str * str)) : M unit :=
  match outputs with
  | [] => ret tt
  | (ident, shown) :: rest =>
    emit (echo "{:<}  {:>}" [ident; shown]);;
    echo_rows rest
  end.

(** code() from the call of session.calculate_all on *)
Definition code_unlocked (show_hidden : bool) (query : str) (single : bool)
    : M unit :=
  entries ← session_calculate_all;
  creds ← lift (_search (map fst entries) query show_hidden);
  found ←
    match creds with
    | [cred] =>
      precomputed ← lift (getitem entries cred);
      code ← resolve cred precomputed;
      ret (Some (cred, code), setitem entries cred code)
    | _ :: _ :: _ =>
      if single then _error_multiple_hits creds else ret (None, entries)
    | [] =>
      if single then ctx_fail "No matching credential found."
      else ret (None, entries)
    end;
  if single && bool_decide (creds ≠ []) then
    match found.1 with
    | Some (cred, code) =>
      if is_steam cred then
        steam ← session_calculate_steam cred;
        emit (echo "{}" [steam])
      else
        match code with
        | Some c => emit (echo "{}" [value c])
        | None => raise (OtherException "AttributeError")
        end
    | None => raise (OtherException "UnboundLocalError")
    end
  else
    outputs ← rows found.2 (sorted creds);
    echo_rows outputs.

Definition code (show_hidden : bool) (query : str) (single : bool)
    (password : option str) (remember : bool) : M unit :=
  _init_session password remember "Enter the password";;
  code_unlocked show_hidden query single.

(** *** The delete command *)

(** delete() from the call of session.list_credentials on *)
Definition delete_unlocked (query : str) (force : bool) : M unit :=
  d ← get_session;
  let creds := list_credentials d in
  hits ← lift (_search creds query true);
  match hits with
  | [] => emit (echo "No matches, nothing to be done." [])
  | [cred] =>
    yes ← (if force then ret true
           else shown ← lift (_string_id cred);
                confirm "Delete credential: {} ?" [shown]);
    if yes : bool then
      session_delete_credential (id cred);;
      shown ← lift (_string_id cred);
      emit (echo "Deleted {}." [shown])
    else emit (echo "Deletion aborted by user." [])
  | _ => _error_multiple_hits hits
  end.

Definition delete (query : str) (force : bool) (password : option str)
    (remember : bool) : M unit :=
  _init_session password remember "Enter the password";;
  delete_unlocked query force.

(** *** The search as the specification words it *)

(** The display identifier of a credential, when its id is well-formed. *)
Definition display_id (c : Credential) : option str := decode_utf8 (id c).

(** The display identifier equals the query, case-sensitively. *)
Definition equals_query (query : str) (c : Credential) : bool :=
  bool_decide (display_id c = Some query).

(** The display identifier contains the query, ignoring case. *)
Definition contains_query (query : str) (c : Credential) : bool :=
  match display_id c with
  | Some shown => str_in (lower query) (lower shown)
  | None => false
  end.

(** The exact match alone when there is one, else the substring matches in
    the order met. *)
Definition search_spec (creds : list Credential) (query : str)
    : list Credential :=
  match List.find (equals_query query) creds with
  | Some c => [c]
  | None => List.filter (contains_query query) creds
  end.

(** *** The admission checks, one by one

    The eight checks in the order in which the specification lists them,
    each with the condition that the source tests, as a function from the
    inputs to the error it reports. *)

Definition check_name (data : CredentialData) : option Exn :=
  if Z.leb 1 (len (data_name data)) && Z.leb (len (data_name data)) 64
  then None else Some InvalidName.

Definition check_secret (data : CredentialData) : option Exn :=
  if Z.leb 2 (len (secret data)) then None else Some SecretTooShort.

Definition check_touch (d : Device) (touch : bool) : option Exn :=
  if touch && version_lt (version d) (4, 2, 6)
  then Some UnsupportedTouch else None.

Definition check_counter (data : CredentialData) : option Exn :=
  if bool_decide (counter data ≠ 0 ∧ data_oath_type data ≠ HOTP)
  then Some CounterNotApplicable else None.

Definition check_sha512 (d : Device) (data : CredentialData) : option Exn :=
  if bool_decide (hash_algorithm data = SHA512)
     && (version_lt (version d) (4, 3, 1) || is_fips_version (version d))
  then Some UnsupportedAlgorithm else None.

Definition overwrite_question : string :=
  "A credential called {} already exists on this YubiKey. Do you want to overwrite it?".

(** Some stored credential has the id of the candidate. *)
Definition same_id_stored (d : Device) (data : CredentialData) : bool :=
  existsb (fun cred => bool_decide (id cred = get_id data)) (list_credentials d).

Definition check_overwrite (d : Device) (data : CredentialData) (force : bool)
    : option Exn :=
  if negb force && same_id_stored d data
     && negb (click_confirm overwrite_question [data_name data])
  then Some Aborted else None.

(** The firmware is one with the overwrite defect. *)
Definition in_defect_window (v : Version) : bool :=
  version_lt (4, 0, 0) v && version_lt v (4, 3, 5).

(** The id of some stored credential extends the id of the candidate:
    it starts with it and is not equal to it. *)
Definition extended_by_stored (d : Device) (data : CredentialData) : bool :=
  existsb (fun cred => startswith (id cred) (get_id data)
                       && negb (bool_decide (id cred = get_id data)))
          (list_credentials d).

Definition check_defect_window (d : Device) (data : CredentialData)
    : option Exn :=
  if in_defect_window (version d) && extended_by_stored d data
  then Some UnsafeOverwriteName else None.

Definition check_submit (d : Device) (data : CredentialData) (touch : bool)
    : option Exn :=
  match put_credential d data touch with
  | Ok _ => None
  | Raise (ApduError NO_SPACE) => Some StorageFull
  | Raise (ApduError COMMAND_ABORTED) => Some StorageFullAborted
  | Raise e => Some e
  end.

Definition admission_checks (d : Device) (data : CredentialData)
    (touch force : bool) : list (option Exn) :=
  [ check_name data; check_secret data; check_touch d touch;
    check_counter data; check_sha512 d data; check_overwrite d data force;
    check_defect_window d data; check_submit d data touch ].

(** The error of the first check that fails. *)
Fixpoint first_failure (checks : list (option Exn)) : option Exn :=
  match checks with
  | [] => None
  | Some e :: _ => Some e
  | None :: rest => first_failure rest
  end.

Definition outcome (failure : option Exn) : Result unit :=
  match failure with
  | Some e => Raise e
  | None => Ok tt
  end.

(** How often the log records a credential handed to the device. *)
Definition puts (l : list Event) : nat :=
  length (List.filter (fun ev => match ev with called_put_credential _ _ => true | _ => false end) l).

(** The device after put_credential, which is the device before when the
    call raises. *)
Definition after_put (d : Device) (data : CredentialData) (touch : bool)
    : Device :=
  match put_credential d data touch with
  | Ok d' => d'
  | Raise _ => d
  end.

(** [w] with more events in its log. *)
Definition logged (w : World) (evs : list Event) : World :=
  {| session := session w; keys := keys w; disk := disk w;
     log := log w ++ evs |}.

(** What _error_multiple_hits writes to the error stream. *)
Definition multiple_hits_report (hits : list Credential) : list Event :=
  [ echo_err "Error: Multiple matches, please make the query more specific." [];
    echo_err EmptyString [] ]
  ++ map (fun c => echo_err "{}" [default [] (display_id c)]) hits.

(** A command was aborted: it ended by raising. *)
Definition aborted {A} (r : Result A) : Prop := ∃ e, r = Raise e.

End Program.

(** ** The other commands of the module *)

(** The methods of the session that only these commands call. *)
Class Administration `{E : Externals} := {
  session_reset : Device -> Device;
  session_set_key : Device -> bytes -> Device;
  session_unset_key : Device -> Device
}.

Section Commands.
Context `{E : Externals} `{X : !Administration}.

(** "{}".format(n) for an integer *)
Definition format_int (n : Z) : str :=
  as_str (NilZero.string_of_int (Z.to_int n)).

(** The key that is remembered for a device, and the one in the settings
    file. *)
Definition remembered (w : World) (device : str) : option str :=
  default ∅ (keys w) !! device.

Definition on_disk (w : World) (device : str) : option str :=
  default ∅ (disk w) !! device.

(** [w] once settings.setdefault("keys", {}) has run. *)
Definition with_keys (w : World) : World :=
  {| session := session w; keys := Some (default ∅ (keys w));
     disk := disk w; log := log w |}.

(** The text that a command works with: the one supplied, or else the one
    typed at the question [text]. *)
Definition supplied_or_typed (supplied : option str) (text : string) : str :=
  if given supplied then default [] supplied else click_prompt text.

(** settings.get("keys", {}) *)
Definition get_keys : M (gmap str str) :=
  fun w => (Ok (default ∅ (keys w)), w).

(** del keys[device_id], on the mapping that the settings hold *)
Definition keys_delitem (device : str) : M unit :=
  fun w =>
    (Ok tt, {| session := session w;
               keys := Some (base.delete device (default ∅ (keys w)));
               disk := disk w; log := log w |}).

(** *** info *)

Definition info : M unit :=
  d ← get_session;
  let v := version d in
  emit (echo "OATH version: {}.{}.{}"
          [format_int v.1.1; format_int v.1.2; format_int v.2]);;
  emit (echo (if locked d then "Password protection: enabled"
              else "Password protection: disabled") []);;
  ks ← get_keys;
  when (locked d && bool_decide (is_Some (ks !! device_id d)))
    (emit (echo "The password for this YubiKey is remembered by ykman." []));;
  when (is_fips_version v)
    (emit (echo "FIPS Approved Mode: {}"
             [if locked d then as_str "Yes" else as_str "No"])).

(** *** reset

    [force] is the flag of click.confirmation_option: without it the
    question is asked, and the command is aborted unless the answer is
    yes. *)

Definition reset_question : string :=
  "WARNING! This will delete all stored OATH credentials and restore factory settings?".

Definition reset (force : bool) : M unit :=
  when (negb force)
    (yes ← confirm reset_question [];
     if yes : bool then ret tt else raise Abort);;
  d ← get_session;
  emit (echo "Resetting OATH data..." []);;
  let old_id := device_id d in
  set_session (session_reset d);;
  ks ← setdefault_keys;
  when (bool_decide (is_Some (ks !! old_id)))
    (keys_delitem old_id;;
     write_settings);;
  emit (echo "Success! All OATH credentials have been cleared from the YubiKey." []).

(** *** access change *)

(** change() from the return of _init_session on *)
Definition change_unlocked (clear : bool) (new_password : option str)
    : M unit :=
  d ← get_session;
  ks ← setdefault_keys;
  let dev_id := device_id d in
  if clear then
    set_session (session_unset_key d);;
    when (bool_decide (is_Some (ks !! dev_id)))
      (keys_delitem dev_id;;
       write_settings);;
    emit (echo "Password cleared from YubiKey." [])
  else
    new ← (if given new_password then ret (default [] new_password)
           else prompt "Enter the new password");
    key ← session_derive_key new;
    d' ← get_session;
    set_session (session_set_key d' key);;
    emit (echo "Password updated." []);;
    when (bool_decide (is_Some (ks !! dev_id)))
      (keys_setitem dev_id (hex key);;
       write_settings;;
       emit (echo "Password remembered." [])).

Definition change (password : option str) (clear : bool)
    (new_password : option str) : M unit :=
  when (clear && given new_password)
    (ctx_fail "--clear cannot be combined with --new-password.");;
  _init_session password false "Enter the current password";;
  change_unlocked clear new_password.

(** *** access remember *)

Definition remember (password : option str) : M unit :=
  d ← get_session;
  let dev_id := device_id d in
  ks ← setdefault_keys;
  if negb (locked d) then
    when (bool_decide (is_Some (ks !! dev_id)))
      (keys_delitem (device_id d);;
       write_settings);;
    emit (echo "This YubiKey is not password protected." [])
  else
    typed ← (if given password then ret (default [] password)
             else prompt "Enter the password");
    key ← session_derive_key typed;
    _validate key true.

(** *** access forget

    _clear_all_passwords is the callback of --all.  It loads the settings
    anew, so it works on what the file holds; ctx.exit() raises Exit(0). *)

Definition _clear_all_passwords (value resilient_parsing : bool) : M unit :=
  if negb value || resilient_parsing then ret tt
  else
    (fun w =>
       match disk w with
       | Some _ =>
         match settings_write None with
         | Some e => (Raise e, w)
         | None => (Ok tt, {| session := session w; keys := keys w;
                              disk := None;
                              log := log w ++ [called_settings_write] |})
         end
       | None => (Ok tt, w)
       end);;
    emit (echo "All passwords have been forgotten." []);;
    ctx_exit 0.

Definition forget : M unit :=
  d ← get_session;
  let dev_id := device_id d in
  ks ← setdefault_keys;
  if bool_decide (is_Some (ks !! dev_id)) then
    keys_delitem (device_id d);;
    write_settings;;
    emit (echo "Password forgotten." [])
  else emit (echo "No password stored for this YubiKey." []).

(** *** accounts add and accounts list *)

(** add() once the secret is at hand (without the argument the source asks
    for it until it parses); digits is the number that int(digits) gives. *)
Definition add_with_secret (secret_key : bytes) (name_arg : str)
    (issuer_arg : option str) (period_arg : Z) (type_arg : OATH_TYPE)
    (digits_arg : Z) (touch : bool) (algorithm : HASH_ALGORITHM)
    (counter_arg : Z) (force : bool) (password : option str)
    (remember_flag : bool) : M unit :=
  _init_session password remember_flag "Enter the password";;
  _add_cred
    {| data_name := name_arg; data_oath_type := type_arg;
       hash_algorithm := algorithm; secret := secret_key;
       digits := digits_arg; data_period := period_arg;
       counter := counter_arg; data_issuer := issuer_arg |}
    touch force.

(** oath_type.name *)
Definition type_name (t : OATH_TYPE) : str :=
  match t with
  | HOTP => as_str "HOTP"
  | TOTP => as_str "TOTP"
  end.

(** The loop of list(): the pieces of a line are echoed with nl=False and
    the line is ended by an echo of nothing. *)
Fixpoint echo_credentials (creds : list Credential)
    (show_type show_period : bool) : M unit :=
  match creds with
  | [] => ret tt
  | cred :: rest =>
    shown ← lift (_string_id cred);
    emit (echo "{}" [shown]);;
    when show_type (emit (echo ", {}" [type_name (oath_type cred)]));;
    when show_period (emit (echo ", {}" [format_int (period cred)]));;
    emit (echo EmptyString []);;
    echo_credentials rest show_type show_period
  end.

(** list() from the return of _init_session on *)
Definition list_unlocked (show_hidden show_type show_period : bool)
    : M unit :=
  d ← get_session;
  let creds :=
    sorted (List.filter (fun cred => show_hidden || negb (is_hidden cred))
                        (list_credentials d)) in
  echo_credentials creds show_type show_period.

Definition list_accounts (show_hidden show_type show_period : bool)
    (password : option str) (remember_flag : bool) : M unit :=
  _init_session password remember_flag "Enter the password";;
  list_unlocked show_hidden show_type show_period.

(** The events of the line that list() prints for a credential. *)
Definition credential_line (show_type show_period : bool) (cred : Credential)
    : list Event :=
  [echo "{}" [default [] (display_id cred)]]
  ++ (if show_type then [echo ", {}" [type_name (oath_type cred)]] else [])
  ++ (if show_period then [echo ", {}" [format_int (period cred)]] else [])
  ++ [echo EmptyString []].

(** The credentials that list() is to show. *)
Definition visible (show_hidden : bool) (creds : list Credential)
    : list Credential :=
  List.filter (fun cred => show_hidden || negb (is_hidden cred)) creds.

(** *** What a run adds to the log *)

(** The events of [w'] after those of [w]. *)
Definition news (w w' : World) : list Event :=
  drop (length (log w)) (log w').

Definition is_asked (ev : Event) : bool :=
  match ev with asked _ _ => true | _ => false end.

Definition is_calculation (ev : Event) : bool :=
  match ev with called_calculate_code _ => true | _ => false end.

Definition is_deletion (ev : Event) : bool :=
  match ev with called_delete_credential _ => true | _ => false end.

Definition is_write (ev : Event) : bool :=
  match ev with called_settings_write => true | _ => false end.

Definition is_end_of_line (ev : Event) : bool :=
  match ev with echo EmptyString [] => true | _ => false end.

End Commands.

(** The demonstration device with a user who answers no, and worlds on it
    in which nothing is remembered and nothing has happened yet. *)
Definition demo : Externals := demo_externals false.

Definition demo_world (d : Yubikey) : @World demo :=
  @Build_World demo d None None [].

(** Inputs for the examples. *)
Definition cred_A : Credential := demo_cred None (as_str "A") TOTP.
Definition cred_AB : Credential := demo_cred None (as_str "AB") TOTP.
Definition cred_hidden : Credential :=
  demo_cred (Some (as_str "_hidden")) (as_str "AB") TOTP.
Definition cred_hotp : Credential := demo_cred None (as_str "bank") HOTP.

Definition data_A : CredentialData :=
  demo_data (as_str "A") TOTP SHA1 (as_bytes "kk") 0.
Definition data_AB : CredentialData :=
  demo_data (as_str "AB") TOTP SHA1 (as_bytes "kk") 0.

(** U+00E9 and 63 times the letter a: 64 code points, 65 octets *)
Definition name_64_chars : str := 233%N :: repeat 97%N 63.
Definition data_64_chars : CredentialData :=
  demo_data name_64_chars TOTP SHA1 (as_bytes "kk") 0.

Definition batch_code : Code :=
  {| value := as_str "111111"; valid_from := 0; valid_to := 30 |}.

(** A device that holds an HOTP credential, for which calculate_all has no
    code, and that answers calculate_code with COMMAND_ABORTED. *)
Definition failing_yubikey : Yubikey :=
  {| firmware := (5, 2, 4); access_key := None; stored := [cred_hotp];
     capacity := 32; batch := [(cred_hotp, None)];
     calculated := Raise (ApduError COMMAND_ABORTED) |}.

(** A device protected by the key derived from "correct horse". *)
Definition locked_yubikey : Yubikey :=
  {| firmware := (5, 2, 4);
     access_key := Some (as_bytes "correct horse"); stored := [cred_A];
     capacity := 32; batch := [(cred_A, None)];
     calculated := Ok batch_code |}.

(** Firmware (4,1,0) holding "A", and holding "AB". *)
Definition world_holding_A : @World demo :=
  demo_world (demo_yubikey (4, 1, 0) [cred_A]).
Definition world_holding_AB : @World demo :=
  demo_world (demo_yubikey (4, 1, 0) [cred_AB]).

(** Firmware (5,2,4) holding "A", "AB" and the hidden "_hidden:AB". *)
Definition world_of_three : @World demo :=
  demo_world (demo_yubikey (5, 2, 4) [cred_A; cred_hidden; cred_AB]).

Definition failing_world : @World demo := demo_world failing_yubikey.

(** The locked device holding the three credentials. *)
Definition locked_world_of_three : @World demo :=
  demo_world
    {| firmware := (5, 2, 4);
       access_key := Some (as_bytes "correct horse");
       stored := [cred_A; cred_hidden; cred_AB]; capacity := 32;
       batch := [(cred_A, None); (cred_hidden, None); (cred_AB, None)];
       calculated := Ok batch_code |}.
Definition locked_world : @World demo := demo_world locked_yubikey.

(** The other methods on the demonstration device. *)
Definition demo_reset (d : Yubikey) : Yubikey :=
  {| firmware := firmware d; access_key := None; stored := [];
     capacity := capacity d; batch := []; calculated := calculated d |}.

Definition demo_set_key (d : Yubikey) (key : option bytes) : Yubikey :=
  {| firmware := firmware d; access_key := key; stored := stored d;
     capacity := capacity d; batch := batch d; calculated := calculated d |}.

Definition demo_administration : @Administration demo :=
  @Build_Administration demo
    demo_reset (fun d key => demo_set_key d (Some key))
    (fun d => demo_set_key d None).

(** The locked device with its key remembered, in memory and in the file. *)
Definition remembering_world : @World demo :=
  @Build_World demo locked_yubikey
    (Some {[ demo_device_id := hex (as_bytes "correct horse") ]})
    (Some {[ demo_device_id := hex (as_bytes "correct horse") ]}) [].

(** The demonstration device with a settings file that cannot be written. *)
Definition demo_unwritable : Externals := {|
  Device := Yubikey;
  version := firmware;
  locked := fun d => bool_decide (access_key d ≠ None);
  device_id := fun _ => demo_device_id;
  list_credentials := stored;
  derive_key := fun _ password => default [] (encode_utf8 password);
  validate := fun d key =>
    if bool_decide (access_key d = Some key) then Ok d
    else Raise (ApduError (SW_other 0x6A80));
  put_credential := demo_put;
  delete_credential := demo_delete;
  calculate_all := batch;
  calculate_code := fun d _ =>
    match calculated d with
    | Ok c => Ok (c, d)
    | Raise e => Raise e
    end;
  get_id := demo_get_id;
  is_hidden := fun c => bool_decide (issuer c = Some (as_str "_hidden"));
  is_steam := fun c =>
    bool_decide (oath_type c = TOTP) && bool_decide (issuer c = Some (as_str "Steam"));
  calculate_steam := fun _ _ => as_str "2BCDF";
  is_fips_version := fun v =>
    negb (version_lt v (4, 4, 0)) && version_lt v (4, 5, 0);
  lower := demo_lower;
  lower_empty := eq_refl;
  sorted := fun creds => creds;
  settings_write := fun _ => Some (OtherException "PermissionError");
  click_prompt := fun _ => as_str "correct horse";
  click_confirm := fun _ _ => false
|}.

Definition unwritable_world : @World demo_unwritable :=
  @Build_World demo_unwritable locked_yubikey None None [].

(** A device on which the touch is never given. *)
Definition untouched_yubikey : Yubikey :=
  {| firmware := (5, 2, 4); access_key := None; stored := [cred_hotp];
     capacity := 32; batch := [(cred_hotp, None)];
     calculated := Raise (ApduError SECURITY_CONDITION_NOT_SATISFIED) |}.

Definition untouched_world : @World demo := demo_world untouched_yubikey.

(** A credential whose id is not UTF-8, and the key of the demonstration
    device. *)
Definition cred_ill_formed : Credential :=
  {| cred_device_id := demo_device_id; id := [xff];
     issuer := Some (as_str "_hidden");
     name := as_str "x"; oath_type := TOTP; period := 30;
     touch_required := Some false |}.

Definition demo_key : bytes := as_bytes "correct horse".

(** An unprotected device for which a key is still remembered, and a device
    whose batch has a code for each credential. *)
Definition stale_world : @World demo :=
  @Build_World demo (demo_yubikey (5, 2, 4) [cred_A])
    (Some {[ demo_device_id := hex demo_key ]})
    (Some {[ demo_device_id := hex demo_key ]}) [].

Definition batch_world : @World demo :=
  demo_world
    {| firmware := (5, 2, 4); access_key := None; stored := [cred_A; cred_AB];
       capacity := 32;
       batch := [(cred_A, Some batch_code); (cred_AB, Some batch_code)];
       calculated := Ok batch_code |}.


(** ** Properties *)

Section Properties.
Context `{E : Externals}.

Lemma string_id_display c :
  _string_id c = or_raise (display_id c) UnicodeDecodeError.
Proof. reflexivity. Qed.

Lemma str_startswith_nil s : str_startswith s [] = true.
Proof. by destruct s. Qed.

Lemma str_in_nil s : str_in [] s = true.
Proof. destruct s; simpl; by rewrite ?str_startswith_nil. Qed.

Lemma search_loop_not_hidden creds : ∀ hits query res,
  _search_loop hits creds query false = Ok res →
  (∀ c, In c hits → is_hidden c = false) →
  ∀ c, In c res → is_hidden c = false.
Proof.
  induction creds as [|a creds IH]; intros hits query res Hrun Hhits c Hc.
  - simpl in Hrun. injection Hrun as <-. by apply Hhits.
  - simpl in Hrun. destruct (_string_id a) as [shown|]; [|done].
    destruct (is_hidden a) eqn:Hhid; simpl in Hrun.
    + by eapply IH.
    + case_bool_decide.
      * injection Hrun as <-. destruct Hc as [<-|[]]. done.
      * destruct (str_in _ _); eapply IH; try eassumption.
        intros c' [Hc'|[<-|[]]]%in_app_iff; [by apply Hhits|done].
Qed.

Lemma search_loop_show_hidden creds : ∀ hits query,
  Forall (fun c => is_Some (display_id c)) creds →
  _search_loop hits creds query true =
  Ok match List.find (equals_query query) creds with
     | Some c => [c]
     | None => hits ++ List.filter (contains_query query) creds
     end.
Proof.
  induction creds as [|a creds IH]; intros hits query Hall.
  - simpl. by rewrite app_nil_r.
  - apply Forall_cons in Hall as [[shown Ha] Hall].
    simpl. rewrite string_id_display, Ha. simpl.
    unfold equals_query at 1, contains_query at 1. rewrite Ha.
    case_bool_decide as Hq.
    + subst. rewrite bool_decide_true by done. done.
    + rewrite bool_decide_false by congruence.
      destruct (str_in _ _); rewrite IH by done;
        destruct (List.find _ _); try done.
      by rewrite <- app_assoc.
Qed.

Ltac run :=
  unfold mbind, M_bind, mret, M_ret, bind, ret, raise, lift, when, emit,
    get_session, set_session, ctx_fail, ctx_exit, try_except in *;
  simpl in *.

(** C5.  On a store that is not locked, _init_session fails with
    UnexpectedPassword when a non-empty password was supplied and returns
    normally otherwise.  Either way nothing is asked, derived or validated
    (the log is as before), the device is as before, the settings file is
    not written and the remembered keys are the same mapping. *)
Theorem unlock_of_unprotected_store w password remember prompt_text :
  locked (session w) = false →
  (_init_session password remember prompt_text w).1 =
    (if given password then Raise UnexpectedPassword else Ok tt)
  ∧ session (_init_session password remember prompt_text w).2 = session w
  ∧ log (_init_session password remember prompt_text w).2 = log w
  ∧ disk (_init_session password remember prompt_text w).2 = disk w
  ∧ default ∅ (keys (_init_session password remember prompt_text w).2)
    = default ∅ (keys w).
Proof.
  intros Hunlocked. unfold _init_session, setdefault_keys. run.
  destruct (keys w) as [ks|] eqn:Hks; simpl; rewrite Hunlocked;
    destruct (given password); simpl; rewrite ?Hks; done.
Qed.

(** C6.  Whatever exception session.validate raises, _validate ends in
    AuthenticationFailed, with nothing remembered; two failures of
    validation give the same result whatever their causes. *)
Theorem validation_failure_is_authentication_failed w key remember e :
  validate (session w) key = Raise e →
  _validate key remember w
    = (Raise AuthenticationFailed, logged w [called_validate key])
  ∧ ∀ w2 remember2 e2,
      validate (session w2) key = Raise e2 →
      (_validate key remember2 w2).1 = (_validate key remember w).1.
Proof.
  intros Hfail.
  assert (Hone : ∀ v r x, validate (session v) key = Raise x →
            _validate key r v = (Raise AuthenticationFailed, logged v [called_validate key])).
  { intros v r x Hx. unfold _validate, session_validate. run. by rewrite Hx. }
  split; [by eapply Hone|].
  intros w2 r2 e2 H2. by rewrite (Hone _ _ _ H2), (Hone _ _ _ Hfail).
Qed.

(** On a locked store no key of which validates, _init_session ends in
    AuthenticationFailed whichever way the key was obtained, unless the
    remembered key is not hexadecimal text. *)
Lemma locked_store_rejects_every_key w password remember prompt_text :
  locked (session w) = true →
  (∀ d key, ∃ e, validate d key = Raise e) →
  (_init_session password remember prompt_text w).1 = Raise AuthenticationFailed
  ∨ (_init_session password remember prompt_text w).1 = Raise ValueError.
Proof.
  intros Hlocked Hnone.
  assert (Hval : ∀ v key, (_validate key remember v).1 = Raise AuthenticationFailed).
  { intros v key. destruct (Hnone (session v) key) as [e He].
    unfold _validate, session_validate. run. by rewrite He. }
  unfold _init_session, setdefault_keys, session_derive_key, prompt.
  unfold mbind, M_bind, bind, get_session. simpl.
  destruct (keys w) as [ks|]; simpl; rewrite Hlocked;
    destruct (given password); run;
    try (left; match goal with |- context [_validate ?k ?r ?v] =>
                 specialize (Hval v k); destruct (_validate k r v) as [[]?];
                 simpl in *; congruence end).
  - destruct (ks !! device_id (session w)) as [remembered|]; simpl.
    + destruct (fromhex remembered); simpl; [|by right].
      left. match goal with |- context [_validate ?k ?r ?v] =>
              specialize (Hval v k); destruct (_validate k r v) as [[]?];
              simpl in *; congruence end.
    + left. match goal with |- context [_validate ?k ?r ?v] =>
              specialize (Hval v k); destruct (_validate k r v) as [[]?];
              simpl in *; congruence end.
  - rewrite lookup_empty. simpl.
    left. match goal with |- context [_validate ?k ?r ?v] =>
            specialize (Hval v k); destruct (_validate k r v) as [[]?];
            simpl in *; congruence end.
Qed.

Lemma puts_app l1 l2 : puts (l1 ++ l2) = (puts l1 + puts l2)%nat.
Proof. unfold puts. by rewrite List.filter_app, length_app. Qed.

Lemma guard_step {B} (c : bool) msg (k : M B) w :
  (when c (ctx_fail msg);; k) w
  = if c then (Raise (UsageError msg), w) else k w.
Proof. by destruct c. Qed.

Lemma confirm_step {B} (c : bool) text args (k : M B) w :
  (when c (yes ← confirm text args; if yes : bool then ret tt else raise Abort);; k) w
  = if c then
      if click_confirm text args then k (logged w [asked text args])
      else (Raise Abort, logged w [asked text args])
    else k w.
Proof. destruct c; [|done]. unfold confirm. run. by destruct (click_confirm _ _). Qed.

Lemma put_step data touch w :
  try_except (session_put_credential data touch)
    (fun e =>
       match e with
       | ApduError sw =>
         if bool_decide (sw = NO_SPACE) then
           ctx_fail "No space left on the YubiKey for OATH credentials."
         else if bool_decide (sw = COMMAND_ABORTED) then
           ctx_fail "The command failed. Is there enough space on the YubiKey?"
         else raise e
       | _ => raise e
       end) w
  = (outcome (check_submit (session w) data touch),
     {| session := after_put (session w) data touch; keys := keys w;
        disk := disk w; log := log w ++ [called_put_credential data touch] |}).
Proof.
  unfold session_put_credential, check_submit, after_put. run.
  destruct (put_credential _ _ _) as [d'|e]; [done|].
  destruct e as [| | |sw| | |]; try done.
  by destruct sw.
Qed.

Lemma check_name_code data :
  check_name data =
  if negb (Z.ltb 0 (len (data_name data)) && Z.leb (len (data_name data)) 64)
  then Some InvalidName else None.
Proof.
  unfold check_name.
  replace (Z.ltb 0 (len (data_name data))) with (Z.leb 1 (len (data_name data)))
    by (destruct (Z.leb_spec 1 (len (data_name data)));
        destruct (Z.ltb_spec 0 (len (data_name data))); lia || done).
  by destruct (_ && _).
Qed.

Lemma check_secret_code data :
  check_secret data =
  if Z.ltb (len (secret data)) 2 then Some SecretTooShort else None.
Proof.
  unfold check_secret.
  destruct (Z.leb_spec 2 (len (secret data)));
    destruct (Z.ltb_spec (len (secret data)) 2); lia || done.
Qed.

Lemma check_counter_code data :
  check_counter data =
  if nonzero (counter data) && negb (bool_decide (data_oath_type data = HOTP))
  then Some CounterNotApplicable else None.
Proof.
  unfold check_counter, nonzero.
  destruct (Z.eqb_spec (counter data) 0) as [H0|H0]; simpl.
  - rewrite bool_decide_false; [done|]. tauto.
  - destruct (decide (data_oath_type data = HOTP)) as [Ht|Ht].
    + rewrite (bool_decide_true _ Ht), bool_decide_false; [done|]. tauto.
    + rewrite (bool_decide_false _ Ht), bool_decide_true; done.
Qed.

Lemma after_put_failed d data touch e :
  check_submit d data touch = Some e → after_put d data touch = d.
Proof.
  unfold check_submit, after_put. by destruct (put_credential d data touch).
Qed.

Lemma add_cred_run w data touch force :
  let d := session w in
  let checks := admission_checks d data touch force in
  let w' := (_add_cred data touch force w).2 in
  (_add_cred data touch force w).1 = outcome (first_failure checks)
  ∧ session w' = (if first_failure checks is Some _ then d else after_put d data touch)
  ∧ puts (log w') =
      (puts (log w) + if first_failure (take 7 checks) is Some _ then 0 else 1)%nat
  ∧ keys w' = keys w ∧ disk w' = disk w.
Proof.
  unfold _add_cred, admission_checks.
  rewrite check_name_code, check_secret_code, check_counter_code.
  unfold check_touch, check_sha512, check_overwrite, check_defect_window,
    in_defect_window, extended_by_stored, same_id_stored, overwrite_question.
  change ((get_session ≫= ?k) w) with (k (session w) w). cbv beta zeta.
  rewrite !guard_step.
  destruct (negb _); [simpl; rewrite Nat.add_0_r; done|].
  destruct (Z.ltb _ 2); [simpl; rewrite Nat.add_0_r; done|].
  destruct (touch && _); [simpl; rewrite Nat.add_0_r; done|].
  destruct (nonzero _ && _); [simpl; rewrite Nat.add_0_r; done|].
  destruct (bool_decide _ && _); [simpl; rewrite Nat.add_0_r; done|].
  rewrite confirm_step.
  assert (Hrest : ∀ w1 : World, session w1 = session w →
    let r := (when (version_lt (4, 0, 0) (version (session w))
                    && version_lt (version (session w)) (4, 3, 5)
                    && existsb (fun cred => startswith (id cred) (get_id data)
                                  && negb (bool_decide (id cred = get_id data)))
                         (list_credentials (session w)))
                (ctx_fail "Choose a name that is not a subset of an existing credential.");;
              try_except (session_put_credential data touch)
                (fun e =>
                   match e with
                   | ApduError sw =>
                     if bool_decide (sw = NO_SPACE) then
                       ctx_fail "No space left on the YubiKey for OATH credentials."
                     else if bool_decide (sw = COMMAND_ABORTED) then
                       ctx_fail "The command failed. Is there enough space on the YubiKey?"
                     else raise e
                   | _ => raise e
                   end)) w1 in
    let tail := [ (if version_lt (4, 0, 0) (version (session w))
                      && version_lt (version (session w)) (4, 3, 5)
                      && existsb (fun cred => startswith (id cred) (get_id data)
                                    && negb (bool_decide (id cred = get_id data)))
                           (list_credentials (session w))
                   then Some UnsafeOverwriteName else None);
                  check_submit (session w) data touch ] in
    r.1 = outcome (first_failure tail)
    ∧ session r.2 = (if first_failure tail is Some _ then session w
                     else after_put (session w) data touch)
    ∧ puts (log r.2) =
        (puts (log w1) + if first_failure (take 1 tail) is Some _ then 0 else 1)%nat
    ∧ keys r.2 = keys w1 ∧ disk r.2 = disk w1).
  { intros w1 Hw1. cbv zeta. rewrite guard_step.
    destruct (_ && _ && _); simpl; [rewrite Nat.add_0_r; done|].
    rewrite put_step, Hw1. simpl. rewrite puts_app. simpl.
    destruct (check_submit _ _ _) eqn:Hsub; simpl; [|done].
    by rewrite (after_put_failed _ _ _ _ Hsub). }
  destruct (negb force && _); simpl.
  - destruct (click_confirm _ _); simpl.
    + match goal with
      | |- context [logged w ?evs] => specialize (Hrest (logged w evs) eq_refl)
      end.
      cbv zeta in Hrest. simpl in Hrest. rewrite puts_app in Hrest.
      simpl in Hrest. rewrite Nat.add_0_r in Hrest. exact Hrest.
    + rewrite puts_app. simpl. by rewrite !Nat.add_0_r.
  - apply (Hrest w eq_refl).
Qed.

(** C8.  _add_cred runs its eight checks in the order name length, secret
    length, touch gate, counter, SHA512 gate, overwrite confirmation, defect
    window, submission: its result is the error of the first check that
    fails, and [Ok] when none fails.  When a check fails the device is the
    one before the call, and when one of the first seven fails (declining
    the overwrite is the sixth) no credential was handed to the device.  The
    remembered keys are never touched. *)
Theorem add_cred_first_failure_wins w data touch force :
  (_add_cred data touch force w).1
    = outcome (first_failure (admission_checks (session w) data touch force))
  ∧ session (_add_cred data touch force w).2
    = (if first_failure (admission_checks (session w) data touch force) is Some _
       then session w else after_put (session w) data touch)
  ∧ list_credentials (session (_add_cred data touch force w).2)
    = (if first_failure (admission_checks (session w) data touch force) is Some _
       then list_credentials (session w)
       else list_credentials (after_put (session w) data touch))
  ∧ puts (log (_add_cred data touch force w).2)
    = (puts (log w)
       + if first_failure (take 7 (admission_checks (session w) data touch force))
            is Some _ then 0 else 1)%nat
  ∧ keys (_add_cred data touch force w).2 = keys w
  ∧ disk (_add_cred data touch force w).2 = disk w.
Proof.
  destruct (add_cred_run w data touch force) as (Hres & Hdev & Hputs & Hk & Hd).
  repeat split; try done.
  rewrite Hdev. by destruct (first_failure _).
Qed.

Lemma existsb_intro {A} (f : A → bool) (l : list A) (x : A) :
  In x l → f x = true → existsb f l = true.
Proof. intros Hin Hf. apply existsb_exists. eauto. Qed.

(** C1, amended.  On firmware strictly between (4,0,0) and (4,3,5), when
    the id of some stored credential starts with the id of the candidate
    without being equal to it, _add_cred fails, hands nothing to the device
    and leaves it as it was; the error is UnsafeOverwriteName unless one of
    the six earlier checks fails, and then it is the error of the first of
    those. *)
Theorem defect_window_rejects_prefix_of_stored w data touch force cred :
  version_lt (4, 0, 0) (version (session w)) = true →
  version_lt (version (session w)) (4, 3, 5) = true →
  In cred (list_credentials (session w)) →
  startswith (id cred) (get_id data) = true →
  id cred ≠ get_id data →
  (_add_cred data touch force w).1
    = Raise (default UnsafeOverwriteName
               (first_failure (take 6 (admission_checks (session w) data touch force))))
  ∧ session (_add_cred data touch force w).2 = session w
  ∧ puts (log (_add_cred data touch force w).2) = puts (log w).
Proof.
  intros Hlow Hhigh Hin Hstarts Hne.
  destruct (add_cred_run w data touch force) as (Hres & Hdev & Hputs & _).
  assert (Hguard : check_defect_window (session w) data = Some UnsafeOverwriteName).
  { unfold check_defect_window, in_defect_window, extended_by_stored.
    rewrite Hlow, Hhigh.
    rewrite (existsb_intro _ _ cred Hin); [done|].
    by rewrite Hstarts, bool_decide_false. }
  unfold admission_checks in *. rewrite Hguard in *. simpl in *.
  destruct (check_name data); [by rewrite Nat.add_0_r in Hputs|].
  destruct (check_secret data); [by rewrite Nat.add_0_r in Hputs|].
  destruct (check_touch _ touch); [by rewrite Nat.add_0_r in Hputs|].
  destruct (check_counter data); [by rewrite Nat.add_0_r in Hputs|].
  destruct (check_sha512 _ data); [by rewrite Nat.add_0_r in Hputs|].
  destruct (check_overwrite _ data force); by rewrite Nat.add_0_r in Hputs.
Qed.

(** The name check counts the code points of the name. *)
Lemma check_name_counts_code_points data :
  check_name data = None ↔ (1 ≤ length (data_name data) ≤ 64)%nat.
Proof.
  unfold check_name, len.
  destruct (Z.leb_spec 1 (Z.of_nat (length (data_name data))));
    destruct (Z.leb_spec (Z.of_nat (length (data_name data))) 64);
    simpl; split; (done || lia).
Qed.

(** *** resolve *)


Lemma resolve_hotp_always_calls w cred precomputed :
  oath_type cred = HOTP →
  In (called_calculate_code cred) (log (resolve cred precomputed w).2).
Proof.
  intros Hhotp. unfold resolve, session_calculate_code. run.
  rewrite Hhotp.
  destruct (is_true _); simpl;
    destruct (calculate_code _ _) as [[c d']|e]; simpl;
    try (destruct e as [| | |sw| | |]; simpl; try case_bool_decide; simpl);
    rewrite !in_app_iff; simpl; tauto.
Qed.


Lemma resolve_hotp_swallows w cred precomputed sw :
  oath_type cred = HOTP →
  calculate_code (session w) cred = Raise (ApduError sw) →
  sw ≠ SECURITY_CONDITION_NOT_SATISFIED →
  (resolve cred precomputed w).1 = Ok precomputed.
Proof.
  intros Hhotp Hcalc Hsw. unfold resolve, session_calculate_code. run.
  rewrite Hhotp. destruct (is_true _); simpl; rewrite Hcalc; simpl;
    by rewrite bool_decide_false.
Qed.


(** *** The commands that need one match *)

Lemma logged_logged w a c : logged (logged w a) c = logged w (a ++ c).
Proof. unfold logged. simpl. by rewrite app_assoc. Qed.

Lemma search_loop_hits_decode creds : ∀ hits query show_hidden res,
  _search_loop hits creds query show_hidden = Ok res →
  Forall (fun c => is_Some (display_id c)) hits →
  Forall (fun c => is_Some (display_id c)) res.
Proof.
  induction creds as [|a creds IH]; intros hits query sh res Hrun Hhits.
  - simpl in Hrun. by injection Hrun as <-.
  - simpl in Hrun. rewrite string_id_display in Hrun.
    destruct (display_id a) as [shown|] eqn:Ha; [|done]. simpl in Hrun.
    destruct (negb sh && is_hidden a); [by eapply IH|].
    case_bool_decide.
    + injection Hrun as <-. apply Forall_singleton. by rewrite Ha.
    + destruct (str_in _ _); eapply IH; try eassumption.
      apply Forall_app. split; [done|]. apply Forall_singleton. by rewrite Ha.
Qed.

Lemma search_hits_decode creds query show_hidden res :
  _search creds query show_hidden = Ok res →
  Forall (fun c => is_Some (display_id c)) res.
Proof. intros H. eapply search_loop_hits_decode; [exact H|constructor]. Qed.

Lemma echo_ids_run hits : ∀ w,
  Forall (fun c => is_Some (display_id c)) hits →
  echo_ids hits w
  = (Ok tt, logged w (map (fun c => echo_err "{}" [default [] (display_id c)]) hits)).
Proof.
  induction hits as [|c hits IH]; intros w Hall.
  - unfold logged. simpl. run. rewrite app_nil_r. by destruct w.
  - apply Forall_cons in Hall as [[shown Hc] Hall].
    simpl. rewrite string_id_display, Hc. run. rewrite IH by done.
    unfold logged. simpl. by rewrite <- app_assoc.
Qed.

Lemma error_multiple_hits_run {A} hits w :
  Forall (fun c => is_Some (display_id c)) hits →
  @_error_multiple_hits _ A hits w
  = (Raise MultipleMatches, logged w (multiple_hits_report hits)).
Proof.
  intros Hall. unfold _error_multiple_hits, multiple_hits_report. run.
  rewrite echo_ids_run by done. unfold logged. simpl.
  by rewrite <- !app_assoc.
Qed.

Lemma code_unlocked_not_one_hit w show_hidden query found :
  _search (map fst (calculate_all (session w))) query show_hidden = Ok found →
  length found ≠ 1%nat →
  code_unlocked show_hidden query true w
  = (if found is [] then (Raise NoMatch, logged w [called_calculate_all])
     else (Raise MultipleMatches,
           logged w (called_calculate_all :: multiple_hits_report found))).
Proof.
  intros Hfound Hnf.
  unfold code_unlocked, session_calculate_all.
  pose proof (search_hits_decode _ _ _ _ Hfound) as Hdec.
  run. rewrite Hfound. simpl.
  destruct found as [|c1 [|c2 rest]]; simpl; [done|done|].
  change (@bind _ ?A ?B ?m ?k ?w) with ((m ≫= k) w).
  rewrite (error_multiple_hits_run (A := option (Credential * option Code) * list (Credential * option Code))) by done.
  change (Build_World (session w) (keys w) (disk w) (log w ++ [called_calculate_all]))
    with (logged w [called_calculate_all]).
  by rewrite logged_logged.
Qed.

Lemma delete_unlocked_not_one_hit w query force hits :
  _search (list_credentials (session w)) query true = Ok hits →
  length hits ≠ 1%nat →
  delete_unlocked query force w
  = (if hits is [] then
       (Ok tt, logged w [echo "No matches, nothing to be done." []])
     else (Raise MultipleMatches, logged w (multiple_hits_report hits))).
Proof.
  intros Hhits Hnh. unfold delete_unlocked.
  pose proof (search_hits_decode _ _ _ _ Hhits) as Hdec.
  run. rewrite Hhits. simpl.
  destruct hits as [|c1 [|c2 rest]]; simpl; [done|done|].
  by rewrite error_multiple_hits_run.
Qed.

(** C9, amended.  Let the store be unlocked: _init_session returns and
    leaves the world [w1] (with --remember it has written the key to the
    settings by then).  With --single, code() ends in an error when the
    search finds no credential (NoMatch) and when it finds several
    (MultipleMatches, after writing the identifier of every hit to the
    error stream).  delete() also ends in MultipleMatches with the same
    report when the search finds several, but when it finds none it says so
    and returns normally.  In each case the device, the settings and the
    file are as the unlocking left them: only the log grows.  The two
    commands are taken each on its own search. *)
Theorem one_match_required w password r w1 :
  _init_session password r "Enter the password" w = (Ok tt, w1) →
  (∀ show_hidden query found,
     _search (map fst (calculate_all (session w1))) query show_hidden = Ok found →
     length found ≠ 1%nat →
     code show_hidden query true password r w
     = (if found is [] then (Raise NoMatch, logged w1 [called_calculate_all])
        else (Raise MultipleMatches,
              logged w1 (called_calculate_all :: multiple_hits_report found))))
  ∧ (∀ query force hits,
       _search (list_credentials (session w1)) query true = Ok hits →
       length hits ≠ 1%nat →
       delete query force password r w
       = (if hits is [] then
            (Ok tt, logged w1 [echo "No matches, nothing to be done." []])
          else (Raise MultipleMatches, logged w1 (multiple_hits_report hits)))).
Proof.
  intros Hinit. split.
  - intros show_hidden query found Hfound Hnf.
    rewrite <- (code_unlocked_not_one_hit w1 show_hidden query found Hfound Hnf).
    unfold code. unfold mbind, M_bind, bind. by rewrite Hinit.
  - intros query force hits Hhits Hnh.
    rewrite <- (delete_unlocked_not_one_hit w1 query force hits Hhits Hnh).
    unfold delete. unfold mbind, M_bind, bind. by rewrite Hinit.
Qed.



Lemma find_exact_unique creds query c :
  NoDup (map display_id creds) →
  In c creds →
  display_id c = Some query →
  List.find (equals_query query) creds = Some c.
Proof.
  induction creds as [|a creds IH]; intros Hnd Hin Hc; [done|].
  apply NoDup_cons in Hnd as [Hfresh Hnd]. simpl. unfold equals_query at 1.
  destruct Hin as [->|Hin].
  - by rewrite bool_decide_true.
  - rewrite bool_decide_false; [by apply IH|].
    intros Ha. apply Hfresh. rewrite Ha, <- Hc.
    apply list_elem_of_In, in_map, Hin.
Qed.

(** C2.  With hidden credentials shown, and every id well-formed, _search
    returns what the specification says: the first credential whose display
    identifier equals the query, alone, when there is one, whatever else
    contains the query; else the credentials whose display identifier
    contains the query ignoring case, in the order met.  For the empty
    query that is every credential, unless one has the empty identifier.
    When no two credentials have the same display identifier, the exact
    match is the one credential with the identifier of the query. *)
Theorem search_show_hidden_spec creds query :
  Forall (fun c => is_Some (display_id c)) creds →
  _search creds query true = Ok (search_spec creds query)
  ∧ _search creds [] true
    = Ok (if List.find (equals_query []) creds is Some c then [c] else creds)
  ∧ ∀ c, NoDup (map display_id creds) → In c creds →
         display_id c = Some query → _search creds query true = Ok [c].
Proof.
  intros Hall. unfold _search, search_spec.
  rewrite !search_loop_show_hidden by done. split; [done|]. split.
  - destruct (List.find _ _); [done|]. simpl. f_equal.
    clear -Hall. induction Hall as [|c creds [shown Hc] _ IH]; [done|].
    simpl. unfold contains_query at 1. rewrite Hc, lower_empty, str_in_nil.
    by rewrite IH.
  - intros c Hnd Hin Hc. by rewrite (find_exact_unique _ _ _ Hnd Hin Hc).
Qed.

(** C3.  Without --show-hidden, _search returns no hidden credential; a
    hidden credential is passed over before its identifier is compared with
    the query, so also when the two are equal. *)
Theorem search_excludes_hidden creds query hits c :
  _search creds query false = Ok hits →
  In c hits →
  is_hidden c = false
  ∧ ∀ h, is_hidden h = true → display_id h = Some query →
         _search (h :: creds) query false = _search creds query false.
Proof.
  intros Hrun Hc. split.
  - eapply search_loop_not_hidden; [exact Hrun| |exact Hc]. by intros ? [].
  - intros h Hh Hid. unfold _search. simpl.
    by rewrite string_id_display, Hid, Hh.
Qed.

Lemma code_after_unlock show_hidden query single password remember w w1 :
  _init_session password remember "Enter the password" w = (Ok tt, w1) →
  code show_hidden query single password remember w
  = code_unlocked show_hidden query single w1.
Proof. intros H. unfold code. run. by rewrite H. Qed.

Lemma delete_after_unlock query force password remember w w1 :
  _init_session password remember "Enter the password" w = (Ok tt, w1) →
  delete query force password remember w = delete_unlocked query force w1.
Proof. intros H. unfold delete. run. by rewrite H. Qed.

End Properties.

(** ** Properties of the rest of the module *)

Section MoreProperties.
Context `{E : Externals} `{X : !Administration}.

Ltac exec :=
  unfold mbind, M_bind, mret, M_ret, bind, ret, raise, lift, when, emit,
    get_session, set_session, ctx_fail, ctx_exit, try_except in *;
  simpl in *.

Lemma news_app w w' evs : log w' = log w ++ evs → news w w' = evs.
Proof. intros H. unfold news. by rewrite H, drop_app_length. Qed.

(** *** Remembered keys *)

Lemma fromhex_step x rest :
  fromhex (hex_digit (Byte.to_N x / 16) :: hex_digit (Byte.to_N x mod 16) :: rest)
  = cons x <$> fromhex rest.
Proof. destruct x; reflexivity. Qed.

Lemma fromhex_hex key : fromhex (hex key) = Some key.
Proof.
  induction key as [|x key IH]; [done|].
  change (hex (x :: key))
    with (hex_digit (Byte.to_N x / 16) :: hex_digit (Byte.to_N x mod 16) :: hex key).
  by rewrite fromhex_step, IH.
Qed.

Lemma validate_run w key r :
  _validate key r w =
  match validate (session w) key with
  | Raise _ => (Raise AuthenticationFailed, logged w [called_validate key])
  | Ok d' =>
    if r then
      let ks := <[device_id d' := hex key]> (default ∅ (keys w)) in
      match settings_write (Some ks) with
      | Some _ =>
        (Raise AuthenticationFailed,
         {| session := d'; keys := Some ks; disk := disk w;
            log := log w ++ [called_validate key] |})
      | None =>
        (Ok tt,
         {| session := d'; keys := Some ks; disk := Some ks;
            log := log w ++ [called_validate key; called_settings_write;
                             echo "Password remembered." []] |})
      end
    else
      (Ok tt, {| session := d'; keys := keys w; disk := disk w;
                 log := log w ++ [called_validate key] |})
  end.
Proof.
  unfold _validate, session_validate, setdefault_keys, keys_setitem,
    write_settings, logged. exec.
  destruct (validate _ _) as [d'|e]; simpl; [|done].
  destruct r; simpl; [|done].
  destruct (keys w) as [ks|]; simpl;
    destruct (settings_write _); simpl; try done;
    by rewrite <- !app_assoc.
Qed.

(** X1.  When the key validates, _validate returns normally with the
    device as validate left it.  With [remember] the key is stored in
    hexadecimal under the id of the device and the settings are written;
    without it the settings are not touched.  The keys remembered for other
    devices stay as they are. *)
Theorem validate_success w key r d' :
  validate (session w) key = Ok d' →
  (r = true →
   settings_write (Some (<[device_id d' := hex key]> (default ∅ (keys w)))) = None) →
  (_validate key r w).1 = Ok tt
  ∧ session (_validate key r w).2 = d'
  ∧ remembered (_validate key r w).2 (device_id d')
    = (if r then Some (hex key) else remembered w (device_id d'))
  ∧ (∀ other, other ≠ device_id d' →
       remembered (_validate key r w).2 other = remembered w other)
  ∧ disk (_validate key r w).2 = (if r then keys (_validate key r w).2 else disk w).
Proof.
  intros Hok Hwrite. rewrite validate_run, Hok. unfold remembered.
  destruct r; simpl; [rewrite (Hwrite eq_refl); simpl|done].
  repeat split; try done.
  - by rewrite lookup_insert_eq.
  - intros other Hne. by rewrite lookup_insert_ne.
Qed.

(** X2.  When the key validates but the settings cannot be written,
    _validate reports AuthenticationFailed all the same: the handler covers
    the whole block.  The device has accepted the key, the key is in the
    settings in memory, and the file is as it was. *)
Theorem validate_write_failure w key d' e :
  validate (session w) key = Ok d' →
  settings_write (Some (<[device_id d' := hex key]> (default ∅ (keys w)))) = Some e →
  (_validate key true w).1 = Raise AuthenticationFailed
  ∧ session (_validate key true w).2 = d'
  ∧ remembered (_validate key true w).2 (device_id d') = Some (hex key)
  ∧ disk (_validate key true w).2 = disk w.
Proof.
  intros Hok Hwrite. rewrite validate_run, Hok. simpl. rewrite Hwrite. simpl.
  unfold remembered. simpl. by rewrite lookup_insert_eq.
Qed.

Lemma validate_asks_nothing w key r :
  ∃ evs, log (_validate key r w).2 = log w ++ evs
         ∧ List.filter is_asked evs = []
         ∧ List.filter is_calculation evs = []
         ∧ List.filter is_deletion evs = []
         ∧ puts evs = 0%nat.
Proof.
  rewrite validate_run.
  destruct (validate _ _) as [d'|e];
    [|simpl; eexists; (split; [reflexivity|done])].
  destruct r; [|simpl; eexists; (split; [reflexivity|done])].
  cbv zeta. destruct (settings_write _); simpl; eexists;
    (split; [reflexivity|done]).
Qed.

Lemma init_session_run w password r text :
  _init_session password r text w =
  if locked (session w) then
    if given password then
      _validate (derive_key (session w) (default [] password)) r
        (logged (with_keys w) [called_derive_key (default [] password)])
    else
      match remembered w (device_id (session w)) with
      | Some h =>
        match fromhex h with
        | Some key => _validate key r (with_keys w)
        | None => (Raise ValueError, with_keys w)
        end
      | None =>
        _validate (derive_key (session w) (click_prompt text)) r
          (logged (with_keys w) [asked text []; called_derive_key (click_prompt text)])
      end
  else if given password then (Raise UnexpectedPassword, with_keys w)
  else (Ok tt, with_keys w).
Proof.
  unfold _init_session, setdefault_keys, session_derive_key, prompt,
    remembered, with_keys, logged.
  unfold mbind, M_bind, bind, get_session.
  destruct w as [d ks dk l]. simpl.
  destruct ks as [ks|]; simpl.
  - destruct (locked d); [|by destruct (given _)].
    destruct (given _); exec; [done|].
    destruct (ks !! _) as [h|]; exec; [|by rewrite <- !app_assoc].
    by destruct (fromhex h).
  - destruct (locked d); [|by destruct (given _)].
    destruct (given _); exec; [done|].
    rewrite lookup_empty. exec. by rewrite <- !app_assoc.
Qed.

Lemma init_session_questions w password r text :
  List.filter is_asked (news w (_init_session password r text w).2)
  = if locked (session w) && negb (given password)
       && bool_decide (remembered w (device_id (session w)) = None)
    then [asked text []] else [].
Proof.
  rewrite init_session_run.
  destruct (locked _); simpl; [|by destruct (given _); unfold news; simpl; rewrite drop_all].
  destruct (given _); simpl.
  - destruct (validate_asks_nothing (logged (with_keys w) [called_derive_key (default [] password)])
                (derive_key (session w) (default [] password)) r)
      as (evs & Hlog & Hask & _).
    simpl in Hlog. rewrite <- app_assoc in Hlog.
    by rewrite (news_app _ _ _ Hlog).
  - destruct (remembered _ _) as [h|]; simpl.
    + try (rewrite bool_decide_false by done).
      destruct (fromhex h) as [key|].
      * destruct (validate_asks_nothing (with_keys w) key r) as (evs & Hlog & Hask & _).
        simpl in Hlog. by rewrite (news_app _ _ _ Hlog).
      * unfold news. simpl. by rewrite drop_all.
    + destruct (validate_asks_nothing
                  (logged (with_keys w) [asked text []; called_derive_key (click_prompt text)])
                  (derive_key (session w) (click_prompt text)) r) as (evs & Hlog & Hask & _).
      simpl in Hlog. rewrite <- app_assoc in Hlog.
      rewrite (news_app _ _ _ Hlog). simpl. by rewrite Hask.
Qed.

(** X3.  _init_session puts a question to the user in one case only: the
    store is locked, no password was supplied and no key is remembered for
    the device.  Then it asks once, for the password; in every other case
    it asks nothing. *)
Theorem init_session_asks_only_as_last_resort w password r text :
  List.filter is_asked (news w (_init_session password r text w).2)
  = if locked (session w) && negb (given password)
       && bool_decide (remembered w (device_id (session w)) = None)
    then [asked text []] else [].
Proof. apply init_session_questions. Qed.

(** X4.  A key that one run remembers is the key that a later run
    validates with: when _validate has stored the key, _init_session
    without a password, on the device still locked, goes straight to
    _validate with that key, asking nothing and deriving nothing. *)
Theorem remembered_key_unlocks_later w key d' r text :
  validate (session w) key = Ok d' →
  settings_write (Some (<[device_id d' := hex key]> (default ∅ (keys w)))) = None →
  locked d' = true →
  _init_session None r text (_validate key true w).2
  = _validate key r (_validate key true w).2.
Proof.
  intros Hok Hwrite Hlocked.
  rewrite init_session_run. rewrite (validate_run w key true), Hok.
  simpl. rewrite Hwrite. simpl. rewrite Hlocked.
  unfold remembered. simpl. rewrite lookup_insert_eq, fromhex_hex.
  done.
Qed.

(** *** _search *)

Lemma search_loop_sublist creds : ∀ hits query show_hidden res seen,
  _search_loop hits creds query show_hidden = Ok res →
  sublist hits seen →
  sublist res (seen ++ creds).
Proof.
  induction creds as [|a creds IH]; intros hits query sh res seen Hrun Hhits.
  - simpl in Hrun. injection Hrun as <-. by rewrite app_nil_r.
  - simpl in Hrun. destruct (_string_id a) as [shown|]; [|done].
    replace (seen ++ a :: creds) with ((seen ++ [a]) ++ creds)
      by (by rewrite <- app_assoc).
    destruct (negb sh && is_hidden a).
    { eapply IH; [exact Hrun|]. by apply sublist_inserts_r. }
    case_bool_decide.
    + injection Hrun as <-. apply sublist_inserts_r, sublist_inserts_l.
      by apply sublist_skip.
    + destruct (str_in _ _); eapply IH; try exact Hrun.
      * apply sublist_app; [done|]. by apply sublist_skip.
      * by apply sublist_inserts_r.
Qed.

(** X5.  Whatever the query and the flag, the credentials that _search
    returns are credentials of the collection, in the order of the
    collection and none twice more than there: the result is a sublist. *)
Theorem search_returns_sublist creds query show_hidden hits :
  _search creds query show_hidden = Ok hits →
  sublist hits creds.
Proof.
  intros Hrun. apply (search_loop_sublist creds [] query show_hidden hits []);
    [exact Hrun|constructor].
Qed.

Lemma search_loop_filter creds : ∀ hits query,
  Forall (fun c => is_Some (display_id c)) creds →
  _search_loop hits creds query false
  = _search_loop hits (List.filter (fun c => negb (is_hidden c)) creds) query true.
Proof.
  induction creds as [|a creds IH]; intros hits query Hall; [done|].
  apply Forall_cons in Hall as [[shown Ha] Hall].
  simpl. rewrite string_id_display, Ha. simpl.
  destruct (is_hidden a); simpl; [by apply IH|].
  rewrite string_id_display, Ha. simpl.
  case_bool_decide; [done|]. destruct (str_in _ _); by apply IH.
Qed.

(** X6.  When every id is well-formed, searching without --show-hidden is
    searching, with everything shown, the collection from which the hidden
    credentials have been taken out. *)
Theorem search_hides_by_filtering creds query :
  Forall (fun c => is_Some (display_id c)) creds →
  _search creds query false
  = _search (List.filter (fun c => negb (is_hidden c)) creds) query true.
Proof. apply search_loop_filter. Qed.

(** X7.  _search decodes the id of a credential before it looks at
    anything else: a credential whose id is not UTF-8, met before an exact
    match, makes the search raise UnicodeDecodeError, also when that
    credential is hidden and hidden credentials are not shown. *)
Theorem search_raises_on_ill_formed_id before c after query show_hidden :
  Forall (fun c' => is_Some (display_id c') ∧ display_id c' ≠ Some query) before →
  display_id c = None →
  _search (before ++ c :: after) query show_hidden = Raise UnicodeDecodeError.
Proof.
  unfold _search. generalize (@nil Credential).
  induction before as [|a before IH]; intros hits Hbefore Hc.
  - simpl. by rewrite string_id_display, Hc.
  - apply Forall_cons in Hbefore as [[[shown Ha] Hne] Hbefore].
    simpl. rewrite string_id_display, Ha. simpl.
    destruct (negb show_hidden && is_hidden a); [by apply IH|].
    rewrite bool_decide_false by congruence.
    destruct (str_in _ _); by apply IH.
Qed.

(** *** _add_cred *)

Lemma guard_run {B} (c : bool) msg (k : M B) w :
  (when c (ctx_fail msg);; k) w
  = if c then (Raise (UsageError msg), w) else k w.
Proof. by destruct c. Qed.

(** X8.  What _add_cred does that can be seen from outside is at most two
    things, in this order: it asks whether to overwrite, exactly when the
    first five checks pass, --force is off and the id of the candidate is
    stored; and it calls put_credential, once, exactly when none of the
    first seven checks fails. *)
Theorem add_cred_interactions w data touch force :
  news w (_add_cred data touch force w).2
  = (if first_failure (take 5 (admission_checks (session w) data touch force))
        is Some _ then []
     else if negb force && same_id_stored (session w) data
          then [asked overwrite_question [data_name data]] else [])
    ++ (if first_failure (take 7 (admission_checks (session w) data touch force))
           is Some _ then []
        else [called_put_credential data touch]).
Proof.
  apply news_app.
  unfold _add_cred, admission_checks.
  rewrite check_name_code, check_secret_code, check_counter_code.
  unfold check_touch, check_sha512, check_overwrite, check_defect_window,
    in_defect_window, extended_by_stored, same_id_stored, overwrite_question.
  change ((get_session ≫= ?k) w) with (k (session w) w). cbv beta zeta.
  rewrite !guard_run.
  destruct (negb _); [simpl; by rewrite app_nil_r|].
  destruct (Z.ltb _ 2); [simpl; by rewrite app_nil_r|].
  destruct (touch && _); [simpl; by rewrite app_nil_r|].
  destruct (nonzero _ && _); [simpl; by rewrite app_nil_r|].
  destruct (bool_decide _ && _); [simpl; by rewrite app_nil_r|].
  rewrite confirm_step.
  destruct (negb force && _); simpl.
  - destruct (click_confirm _ _); simpl; [|done].
    rewrite guard_run. destruct (_ && _ && _); simpl; [done|].
    rewrite put_step. simpl. by rewrite <- app_assoc.
  - rewrite guard_run. destruct (_ && _ && _); simpl; [by rewrite app_nil_r|].
    by rewrite put_step.
Qed.

(** *** code and delete *)

(** X9.  For an HOTP credential, and for any credential without a code
    from the batch, resolve asks the device: the code that calculate_code
    returns is the result, and the device is the one that the call left. *)
Theorem resolve_recomputes w cred precomputed c d' :
  oath_type cred = HOTP ∨ precomputed = None →
  calculate_code (session w) cred = Ok (c, d') →
  (resolve cred precomputed w).1 = Ok (Some c)
  ∧ session (resolve cred precomputed w).2 = d'.
Proof.
  intros Hwhy Hcalc. unfold resolve, session_calculate_code. exec.
  destruct (is_true _); simpl;
    (destruct Hwhy as [Hh| ->];
     [rewrite Hh; simpl; rewrite Hcalc; done
     |case_bool_decide; simpl; rewrite Hcalc; done]).
Qed.

(** X10.  When the device answers the calculation with
    SECURITY_CONDITION_NOT_SATISFIED, resolve fails with TouchTimeout and
    the device is as before; a credential that requires touch has been
    announced to the user first. *)
Theorem resolve_touch_timeout w cred precomputed :
  oath_type cred = HOTP ∨ precomputed = None →
  calculate_code (session w) cred
  = Raise (ApduError SECURITY_CONDITION_NOT_SATISFIED) →
  (resolve cred precomputed w).1 = Raise TouchTimeout
  ∧ session (resolve cred precomputed w).2 = session w
  ∧ head (news w (resolve cred precomputed w).2)
    = Some (if is_true (touch_required cred) then prompt_for_touch
            else if bool_decide (oath_type cred = HOTP) then prompt_timeout
            else called_calculate_code cred).
Proof.
  intros Hwhy Hcalc. unfold resolve, session_calculate_code, news. exec.
  destruct (is_true _); simpl;
    (destruct Hwhy as [Hh| ->];
     [rewrite Hh; simpl; rewrite Hcalc; simpl
     |case_bool_decide; simpl; rewrite Hcalc; simpl]);
    (split; [done|]); (split; [done|]);
    rewrite <- ?app_assoc; by rewrite drop_app_length.
Qed.

Lemma rows_quiet entries creds : ∀ w,
  session (rows entries creds w).2 = session w
  ∧ keys (rows entries creds w).2 = keys w
  ∧ disk (rows entries creds w).2 = disk w
  ∧ ∃ evs, log (rows entries creds w).2 = log w ++ evs
           ∧ List.filter is_calculation evs = [].
Proof.
  induction creds as [|cred creds IH]; intros w.
  - simpl. exec. repeat split; try done. exists []. by rewrite app_nil_r.
  - simpl. unfold session_calculate_steam. exec.
    destruct (getitem entries cred) as [code|]; simpl;
      [|repeat split; try done; exists []; by rewrite app_nil_r].
    destruct (is_steam cred); simpl.
    + destruct (_string_id cred) as [ident|]; simpl;
        [|repeat split; try done; eexists; split; [reflexivity|done]].
      match goal with |- context [rows entries creds ?v] =>
        destruct (IH v) as (Hs & Hk & Hd & evs & Hl & Hq);
        destruct (rows entries creds v) as [[out|e] v'] end;
        simpl in *; repeat split; try done;
        exists (called_calculate_steam cred :: evs);
        rewrite Hl, <- app_assoc; done.
    + destruct (_string_id cred) as [ident|]; simpl;
        [|repeat split; try done; exists []; by rewrite app_nil_r].
      match goal with |- context [rows entries creds ?v] =>
        destruct (IH v) as (Hs & Hk & Hd & evs & Hl & Hq);
        destruct (rows entries creds v) as [[out|e] v'] end;
        simpl in *; repeat split; try done; by exists evs.
Qed.

Lemma echo_rows_quiet outputs : ∀ w,
  (echo_rows outputs w).1 = Ok tt
  ∧ session (echo_rows outputs w).2 = session w
  ∧ ∃ evs, log (echo_rows outputs w).2 = log w ++ evs
           ∧ List.filter is_calculation evs = [].
Proof.
  induction outputs as [|[ident shown] outputs IH]; intros w.
  - simpl. exec. repeat split; try done. exists []. by rewrite app_nil_r.
  - simpl. exec.
    match goal with |- context [echo_rows outputs ?v] =>
      destruct (IH v) as (Hr & Hs & evs & Hl & Hq) end.
    repeat split; try done. simpl in *.
    eexists (_ :: evs). rewrite Hl, <- app_assoc. done.
Qed.

Lemma code_listing_run w show_hidden query found :
  _search (map fst (calculate_all (session w))) query show_hidden = Ok found →
  length found ≠ 1%nat →
  code_unlocked show_hidden query false w
  = (rows (calculate_all (session w)) (sorted found) ≫= echo_rows)
      (logged w [called_calculate_all]).
Proof.
  intros Hfound Hlen. unfold code_unlocked, session_calculate_all, logged.
  exec. rewrite Hfound. simpl.
  by destruct found as [|c1 [|c2 rest]].
Qed.

(** X11.  Without --single, when the search does not give exactly one
    hit, code() only lists: it never calls calculate_code, so no counter
    moves and no touch is asked for, and the device is as before. *)
Theorem code_lists_without_calculating w show_hidden query found :
  _search (map fst (calculate_all (session w))) query show_hidden = Ok found →
  length found ≠ 1%nat →
  session (code_unlocked show_hidden query false w).2 = session w
  ∧ List.filter is_calculation (news w (code_unlocked show_hidden query false w).2)
    = [].
Proof.
  intros Hfound Hlen. rewrite (code_listing_run _ _ _ _ Hfound Hlen).
  unfold mbind, M_bind, bind.
  destruct (rows_quiet (calculate_all (session w)) (sorted found)
              (logged w [called_calculate_all]))
    as (Hs & _ & _ & evs & Hl & Hq).
  destruct (rows _ _ _) as [[out|e] v']; simpl in *.
  - destruct (echo_rows_quiet out v') as (_ & Hs' & evs' & Hl' & Hq').
    split; [congruence|].
    rewrite Hl, <- !app_assoc in Hl'. rewrite (news_app _ _ _ Hl').
    simpl. by rewrite List.filter_app, Hq, Hq'.
  - split; [done|]. rewrite <- app_assoc in Hl.
    by rewrite (news_app _ _ _ Hl).
Qed.

(** X12.  When delete() has one hit and the user answers no, nothing is
    deleted: the device is as before and the command returns normally
    after saying that the deletion was aborted. *)
Theorem delete_declined w query cred :
  _search (list_credentials (session w)) query true = Ok [cred] →
  click_confirm "Delete credential: {} ?" [default [] (display_id cred)] = false →
  delete_unlocked query false w
  = (Ok tt,
     logged w [asked "Delete credential: {} ?" [default [] (display_id cred)];
               echo "Deletion aborted by user." []]).
Proof.
  intros Hhit Hno.
  pose proof (search_hits_decode _ _ _ _ Hhit) as Hdec.
  apply Forall_singleton in Hdec as [shown Hshown].
  rewrite Hshown in *. simpl in Hno.
  unfold delete_unlocked, confirm, logged.
  unfold mbind, M_bind, bind, get_session, lift. simpl. rewrite Hhit. simpl.
  rewrite string_id_display, Hshown. exec.
  destruct (click_confirm _ _) eqn:Hanswer; [congruence|].
  simpl. by rewrite <- app_assoc.
Qed.

(** *** Commands behind a password *)

Lemma bind_raise {A B} (m : M A) (k : A → M B) w e w1 :
  m w = (Raise e, w1) → (m ≫= k) w = (Raise e, w1).
Proof. intros H. unfold mbind, M_bind, bind. by rewrite H. Qed.

Lemma init_session_wrong_password w password r text e :
  locked (session w) = true →
  given password = true →
  validate (session w) (derive_key (session w) (default [] password)) = Raise e →
  _init_session password r text w
  = (Raise AuthenticationFailed,
     logged (with_keys w)
       [called_derive_key (default [] password);
        called_validate (derive_key (session w) (default [] password))]).
Proof.
  intros Hlocked Hgiven Hfail.
  rewrite init_session_run, Hlocked, Hgiven, validate_run. simpl.
  rewrite Hfail. unfold logged. simpl. by rewrite <- app_assoc.
Qed.

(** X13.  On a locked store, a supplied password that the device rejects
    stops delete, code, add, list and access change alike: each ends in
    AuthenticationFailed having done nothing but derive the key and try it.
    Nothing is deleted, added, calculated, listed or changed. *)
Theorem wrong_password_stops_commands w password e :
  locked (session w) = true →
  given password = true →
  validate (session w) (derive_key (session w) (default [] password)) = Raise e →
  (∀ query force r,
     delete query force password r w
     = (Raise AuthenticationFailed,
        logged (with_keys w)
          [called_derive_key (default [] password);
           called_validate (derive_key (session w) (default [] password))]))
  ∧ (∀ show_hidden query single r,
       code show_hidden query single password r w
       = (Raise AuthenticationFailed,
          logged (with_keys w)
            [called_derive_key (default [] password);
             called_validate (derive_key (session w) (default [] password))]))
  ∧ (∀ key n i p t g touch a c force r,
       add_with_secret key n i p t g touch a c force password r w
       = (Raise AuthenticationFailed,
          logged (with_keys w)
            [called_derive_key (default [] password);
             called_validate (derive_key (session w) (default [] password))]))
  ∧ (∀ show_hidden show_type show_period r,
       list_accounts show_hidden show_type show_period password r w
       = (Raise AuthenticationFailed,
          logged (with_keys w)
            [called_derive_key (default [] password);
             called_validate (derive_key (session w) (default [] password))]))
  ∧ (∀ clear new_password,
       clear && given new_password = false →
       change password clear new_password w
       = (Raise AuthenticationFailed,
          logged (with_keys w)
            [called_derive_key (default [] password);
             called_validate (derive_key (session w) (default [] password))])).
Proof.
  intros Hlocked Hgiven Hfail.
  pose proof (λ r text, init_session_wrong_password w password r text e
                          Hlocked Hgiven Hfail) as Hstop.
  repeat split; intros.
  - unfold delete. by apply bind_raise.
  - unfold code. by apply bind_raise.
  - unfold add_with_secret. by apply bind_raise.
  - unfold list_accounts. by apply bind_raise.
  - unfold change. rewrite guard_run, H. by apply bind_raise.
Qed.

(** *** info, reset and the access commands *)

(** X14.  info only reads: it returns normally and leaves the device, the
    settings in memory (no entry is created) and the file as they are.  It
    says that the password is remembered exactly when the store is locked
    and a key is remembered for the device. *)
Theorem info_only_reads w :
  (info w).1 = Ok tt
  ∧ session (info w).2 = session w
  ∧ keys (info w).2 = keys w
  ∧ disk (info w).2 = disk w
  ∧ (In (echo "The password for this YubiKey is remembered by ykman." [])
        (news w (info w).2)
     ↔ locked (session w) = true
       ∧ is_Some (remembered w (device_id (session w)))).
Proof.
  unfold info, get_keys, remembered, news. exec.
  split; [|split; [|split; [|split; [|split]]]];
    try (destruct (locked (session w)); simpl; [case_bool_decide; simpl|];
         by destruct (is_fips_version _)).
  - destruct (locked (session w)); simpl; [case_bool_decide as Hk; simpl|];
      destruct (is_fips_version _); simpl;
      rewrite <- ?app_assoc, ?drop_app_length; simpl; intros Hin;
      repeat (destruct Hin as [Hin|Hin]; try discriminate Hin); done.
  - intros [Hl Hs]. rewrite Hl. simpl. rewrite bool_decide_true by done.
    simpl. destruct (is_fips_version _); simpl;
      rewrite <- ?app_assoc, ?drop_app_length; simpl; tauto.
Qed.

(** X15.  reset without --force asks first, and when the answer is no it is
    aborted with nothing done: the device is not reset and no key is
    forgotten. *)
Theorem reset_declined w :
  click_confirm reset_question [] = false →
  reset false w = (Raise Abort, logged w [asked reset_question []]).
Proof.
  intros Hno. unfold reset, confirm, logged. exec.
  by destruct (click_confirm _ _).
Qed.

(** X16.  A reset that goes ahead resets the device and forgets the key
    remembered under the id that the device had before the reset; the keys
    of other devices are kept, and the settings are written only when there
    was a key to forget. *)
Theorem reset_forgets_old_key w force :
  force = true ∨ click_confirm reset_question [] = true →
  (is_Some (remembered w (device_id (session w))) →
   settings_write (Some (base.delete (device_id (session w)) (default ∅ (keys w))))
   = None) →
  (reset force w).1 = Ok tt
  ∧ session (reset force w).2 = session_reset (session w)
  ∧ remembered (reset force w).2 (device_id (session w)) = None
  ∧ (∀ other, other ≠ device_id (session w) →
       remembered (reset force w).2 other = remembered w other)
  ∧ List.filter is_write (news w (reset force w).2)
    = (if bool_decide (is_Some (remembered w (device_id (session w))))
       then [called_settings_write] else []).
Proof.
  intros Hgo Hwrite. unfold remembered in *.
  unfold reset, confirm, setdefault_keys, keys_delitem, write_settings, news.
  destruct w as [d ks dk l].
  assert (Hyes : force = false → click_confirm reset_question [] = true)
    by (intros ->; by destruct Hgo).
  destruct force; exec; [|rewrite (Hyes eq_refl); simpl];
    (destruct ks as [ks|]; simpl in *;
     [case_bool_decide as Hk; simpl;
      [rewrite (Hwrite Hk); simpl|]
     |rewrite bool_decide_false by (rewrite lookup_empty; by intros [? ?]);
      simpl]);
    repeat split; try done;
    try (by rewrite lookup_delete_eq);
    try (intros other Hne; by rewrite lookup_delete_ne);
    try (by apply eq_None_not_Some);
    rewrite <- ?app_assoc, drop_app_length; done.
Qed.

(** X17.  Once the store is unlocked, access change --clear takes the
    password off the device and forgets the key remembered for it; the keys
    of other devices are kept, and the settings are written only when
    there was a key to forget. *)
Theorem change_clear_forgets_key w new_password :
  (is_Some (remembered w (device_id (session w))) →
   settings_write (Some (base.delete (device_id (session w)) (default ∅ (keys w))))
   = None) →
  (change_unlocked true new_password w).1 = Ok tt
  ∧ session (change_unlocked true new_password w).2
    = session_unset_key (session w)
  ∧ remembered (change_unlocked true new_password w).2 (device_id (session w))
    = None
  ∧ (∀ other, other ≠ device_id (session w) →
       remembered (change_unlocked true new_password w).2 other
       = remembered w other)
  ∧ List.filter is_write (news w (change_unlocked true new_password w).2)
    = (if bool_decide (is_Some (remembered w (device_id (session w))))
       then [called_settings_write] else []).
Proof.
  intros Hwrite. unfold remembered in *.
  unfold change_unlocked, setdefault_keys, keys_delitem, write_settings, news.
  destruct w as [d ks dk l]. exec.
  destruct ks as [ks|]; simpl in *;
    [case_bool_decide as Hk; simpl; [rewrite (Hwrite Hk); simpl|]
    |rewrite bool_decide_false by (rewrite lookup_empty; by intros [? ?]);
     simpl];
    repeat split; try done;
    try (by rewrite lookup_delete_eq);
    try (intros other Hne; by rewrite lookup_delete_ne);
    try (by apply eq_None_not_Some);
    rewrite <- ?app_assoc, drop_app_length; done.
Qed.

(** X18.  Once the store is unlocked, access change sets on the device the
    key derived from the new password (the one supplied, or else the one
    typed).  It never starts to remember: the remembered key is replaced by
    the new one when there was one, and there is none afterwards when there
    was none.  The keys of other devices are kept. *)
Theorem change_updates_remembered_key w new_password :
  (is_Some (remembered w (device_id (session w))) →
   settings_write
     (Some (<[device_id (session w) :=
                hex (derive_key (session w)
                       (supplied_or_typed new_password "Enter the new password"))]>
              (default ∅ (keys w))))
   = None) →
  (change_unlocked false new_password w).1 = Ok tt
  ∧ session (change_unlocked false new_password w).2
    = session_set_key (session w)
        (derive_key (session w)
           (supplied_or_typed new_password "Enter the new password"))
  ∧ remembered (change_unlocked false new_password w).2 (device_id (session w))
    = (if bool_decide (is_Some (remembered w (device_id (session w))))
       then Some (hex (derive_key (session w)
                         (supplied_or_typed new_password "Enter the new password")))
       else None)
  ∧ (∀ other, other ≠ device_id (session w) →
       remembered (change_unlocked false new_password w).2 other
       = remembered w other)
  ∧ List.filter is_write (news w (change_unlocked false new_password w).2)
    = (if bool_decide (is_Some (remembered w (device_id (session w))))
       then [called_settings_write] else []).
Proof.
  intros Hwrite. unfold remembered, supplied_or_typed in *.
  unfold change_unlocked, setdefault_keys, keys_setitem, write_settings,
    session_derive_key, prompt, news.
  destruct w as [d ks dk l]. exec.
  destruct (given new_password); simpl in *;
    (destruct ks as [ks|]; simpl in *;
     [case_bool_decide as Hk; simpl; [rewrite (Hwrite Hk); simpl|]
     |rewrite bool_decide_false by (rewrite lookup_empty; by intros [? ?]);
      simpl]);
    repeat split; try done;
    try (by rewrite lookup_insert_eq);
    try (intros other Hne; by rewrite lookup_insert_ne);
    try (by apply eq_None_not_Some);
    rewrite <- ?app_assoc, drop_app_length; done.
Qed.

(** X19.  access remember on a store that is not protected validates
    nothing and remembers nothing: it forgets the key that may be remembered
    for the device, writes the settings only then, and says that the
    YubiKey is not protected. *)
Theorem remember_on_unprotected_store w password :
  locked (session w) = false →
  (is_Some (remembered w (device_id (session w))) →
   settings_write (Some (base.delete (device_id (session w)) (default ∅ (keys w))))
   = None) →
  (remember password w).1 = Ok tt
  ∧ session (remember password w).2 = session w
  ∧ remembered (remember password w).2 (device_id (session w)) = None
  ∧ (∀ other, other ≠ device_id (session w) →
       remembered (remember password w).2 other = remembered w other)
  ∧ news w (remember password w).2
    = (if bool_decide (is_Some (remembered w (device_id (session w))))
       then [called_settings_write] else [])
      ++ [echo "This YubiKey is not password protected." []].
Proof.
  intros Hunlocked Hwrite. unfold remembered in *.
  unfold remember, setdefault_keys, keys_delitem, write_settings, news.
  destruct w as [d ks dk l]. exec. rewrite Hunlocked. simpl.
  destruct ks as [ks|]; simpl in *;
    [case_bool_decide as Hk; simpl; [rewrite (Hwrite Hk); simpl|]
    |rewrite bool_decide_false by (rewrite lookup_empty; by intros [? ?]);
     simpl];
    repeat split; try done;
    try (by rewrite lookup_delete_eq);
    try (intros other Hne; by rewrite lookup_delete_ne);
    try (by apply eq_None_not_Some);
    rewrite <- ?app_assoc, drop_app_length; done.
Qed.

Lemma remember_run w password :
  locked (session w) = true →
  remember password w
  = _validate (derive_key (session w) (supplied_or_typed password "Enter the password"))
      true
      (logged (with_keys w)
         ((if given password then [] else [asked "Enter the password" []])
          ++ [called_derive_key (supplied_or_typed password "Enter the password")])).
Proof.
  intros Hlocked. unfold remember, setdefault_keys, session_derive_key, prompt,
    supplied_or_typed, with_keys, logged.
  unfold mbind, M_bind, bind, get_session.
  destruct w as [d ks dk l]. simpl in *. rewrite Hlocked.
  destruct ks as [ks|]; simpl; destruct (given password); exec;
    by rewrite <- ?app_assoc.
Qed.

(** X20.  access remember on a locked store, with a password that the
    device accepts, stores the derived key in hexadecimal under the id of
    the device, in memory and in the file, whether or not another key was
    remembered before. *)
Theorem remember_stores_validated_key w password d' :
  locked (session w) = true →
  validate (session w)
    (derive_key (session w) (supplied_or_typed password "Enter the password"))
  = Ok d' →
  settings_write
    (Some (<[device_id d' :=
               hex (derive_key (session w)
                      (supplied_or_typed password "Enter the password"))]>
             (default ∅ (keys w))))
  = None →
  (remember password w).1 = Ok tt
  ∧ remembered (remember password w).2 (device_id d')
    = Some (hex (derive_key (session w)
                   (supplied_or_typed password "Enter the password")))
  ∧ on_disk (remember password w).2 (device_id d')
    = Some (hex (derive_key (session w)
                   (supplied_or_typed password "Enter the password"))).
Proof.
  intros Hlocked Hok Hwrite. rewrite (remember_run _ _ Hlocked).
  rewrite validate_run. simpl. rewrite Hok. simpl.
  replace (default ∅ (Some (default ∅ (keys w)))) with (default ∅ (keys w)) by done.
  rewrite Hwrite. unfold remembered, on_disk. simpl.
  by rewrite lookup_insert_eq.
Qed.

(** X21.  access remember with a password that the device rejects ends in
    AuthenticationFailed and changes nothing that is remembered. *)
Theorem remember_rejected_password w password e :
  locked (session w) = true →
  validate (session w)
    (derive_key (session w) (supplied_or_typed password "Enter the password"))
  = Raise e →
  (remember password w).1 = Raise AuthenticationFailed
  ∧ session (remember password w).2 = session w
  ∧ (∀ device, remembered (remember password w).2 device = remembered w device)
  ∧ disk (remember password w).2 = disk w.
Proof.
  intros Hlocked Hfail. rewrite (remember_run _ _ Hlocked).
  rewrite validate_run. simpl. rewrite Hfail. done.
Qed.

(** X22.  access forget removes the key remembered for the device and no
    other, and writes the settings; when no key is remembered it writes
    nothing and says so.  The device is not touched. *)
Theorem forget_removes_key w :
  (is_Some (remembered w (device_id (session w))) →
   settings_write (Some (base.delete (device_id (session w)) (default ∅ (keys w))))
   = None) →
  (forget w).1 = Ok tt
  ∧ session (forget w).2 = session w
  ∧ remembered (forget w).2 (device_id (session w)) = None
  ∧ (∀ other, other ≠ device_id (session w) →
       remembered (forget w).2 other = remembered w other)
  ∧ news w (forget w).2
    = (if bool_decide (is_Some (remembered w (device_id (session w))))
       then [called_settings_write; echo "Password forgotten." []]
       else [echo "No password stored for this YubiKey." []]).
Proof.
  intros Hwrite. unfold remembered in *.
  unfold forget, setdefault_keys, keys_delitem, write_settings, news.
  destruct w as [d ks dk l]. exec.
  destruct ks as [ks|]; simpl in *;
    [case_bool_decide as Hk; simpl; [rewrite (Hwrite Hk); simpl|]
    |rewrite bool_decide_false by (rewrite lookup_empty; by intros [? ?]);
     simpl];
    repeat split; try done;
    try (by rewrite lookup_delete_eq);
    try (intros other Hne; by rewrite lookup_delete_ne);
    try (by apply eq_None_not_Some);
    rewrite <- ?app_assoc, drop_app_length; done.
Qed.

Lemma forget_state w :
  (is_Some (remembered w (device_id (session w))) →
   settings_write (Some (base.delete (device_id (session w)) (default ∅ (keys w))))
   = None) →
  session (forget w).2 = session w
  ∧ remembered (forget w).2 (device_id (session w)) = None.
Proof.
  intros Hwrite. unfold remembered in *.
  unfold forget, setdefault_keys, keys_delitem, write_settings.
  destruct w as [d ks dk l]. exec.
  destruct ks as [ks|]; simpl in *;
    [case_bool_decide as Hk; simpl; [rewrite (Hwrite Hk); simpl|]
    |rewrite bool_decide_false by (rewrite lookup_empty; by intros [? ?]);
     simpl];
    repeat split; try done;
    try (by rewrite lookup_delete_eq);
    by apply eq_None_not_Some.
Qed.

(** X23.  After access forget, the next command on the locked store asks
    for the password again. *)
Theorem forget_then_unlock_asks w r text :
  locked (session w) = true →
  (is_Some (remembered w (device_id (session w))) →
   settings_write (Some (base.delete (device_id (session w)) (default ∅ (keys w))))
   = None) →
  List.filter is_asked
    (news (forget w).2 (_init_session None r text (forget w).2).2)
  = [asked text []].
Proof.
  intros Hlocked Hwrite.
  destruct (forget_state w Hwrite) as (Hs & Hgone).
  rewrite init_session_questions, Hs, Hlocked, Hgone. done.
Qed.

(** X24.  access forget --all empties the settings file of remembered keys
    and ends the command with exit status 0 before it reaches the device;
    when the option is not given, or click is only completing, the callback
    does nothing. *)
Theorem clear_all_passwords_empties_file w value resilient_parsing :
  settings_write None = None →
  (_clear_all_passwords value resilient_parsing w).1
    = (if negb value || resilient_parsing then Ok tt else Raise (Exit 0))
  ∧ disk (_clear_all_passwords value resilient_parsing w).2
    = (if negb value || resilient_parsing then disk w else None)
  ∧ session (_clear_all_passwords value resilient_parsing w).2 = session w
  ∧ List.filter is_write (news w (_clear_all_passwords value resilient_parsing w).2)
    = (if negb value || resilient_parsing then []
       else if disk w is Some _ then [called_settings_write] else []).
Proof.
  intros Hwrite. unfold _clear_all_passwords, news.
  destruct (negb value || resilient_parsing); exec;
    [by rewrite drop_all|].
  destruct (disk w) eqn:Hd; simpl; rewrite ?Hwrite; simpl;
    repeat split; try done;
    rewrite <- ?app_assoc, drop_app_length; done.
Qed.

(** *** list and delete *)

Lemma echo_credentials_run creds show_type show_period : ∀ w,
  Forall (fun c => is_Some (display_id c)) creds →
  echo_credentials creds show_type show_period w
  = (Ok tt, logged w (flat_map (credential_line show_type show_period) creds)).
Proof.
  induction creds as [|c creds IH]; intros w Hall.
  - unfold logged. simpl. exec. rewrite app_nil_r. by destruct w.
  - apply Forall_cons in Hall as [[shown Hc] Hall].
    simpl. rewrite string_id_display, Hc.
    destruct show_type, show_period; exec; rewrite IH by done;
      unfold logged, credential_line; simpl; rewrite ?Hc; simpl;
      by rewrite <- !app_assoc.
Qed.

Lemma credential_line_id show_type show_period cred shown :
  In (echo "{}" [shown]) (credential_line show_type show_period cred)
  ↔ default [] (display_id cred) = shown.
Proof.
  unfold credential_line. destruct show_type, show_period; simpl; split;
    try (intros Hin; repeat (destruct Hin as [Hin|Hin]; try discriminate Hin);
         [congruence|done]);
    intros ->; tauto.
Qed.

(** X25.  Once the store is unlocked, list() prints one line for each
    credential that is to be shown and none for the others, and it does not
    touch the device: the identifiers printed are those of the credentials
    on the device that are not hidden, or of all of them with
    --show-hidden.  (Every id is well-formed, and sorted gives back the
    credentials that it was given.) *)
Theorem list_prints_visible_credentials w show_hidden show_type show_period :
  Forall (fun c => is_Some (display_id c)) (list_credentials (session w)) →
  sorted (visible show_hidden (list_credentials (session w)))
    ≡ₚ visible show_hidden (list_credentials (session w)) →
  (list_unlocked show_hidden show_type show_period w).1 = Ok tt
  ∧ session (list_unlocked show_hidden show_type show_period w).2 = session w
  ∧ length (List.filter is_end_of_line
              (news w (list_unlocked show_hidden show_type show_period w).2))
    = length (visible show_hidden (list_credentials (session w)))
  ∧ ∀ shown,
      In (echo "{}" [shown])
         (news w (list_unlocked show_hidden show_type show_period w).2)
      ↔ ∃ c, In c (list_credentials (session w))
             ∧ (show_hidden = true ∨ is_hidden c = false)
             ∧ display_id c = Some shown.
Proof.
  intros Hall Hperm. unfold list_unlocked.
  change ((get_session ≫= ?k) w) with (k (session w) w). cbv beta zeta.
  fold (visible show_hidden (list_credentials (session w))).
  assert (Hvis : Forall (fun c => is_Some (display_id c))
                   (sorted (visible show_hidden (list_credentials (session w))))).
  { rewrite Hperm. unfold visible. apply Forall_forall. intros c Hc.
    apply list_elem_of_In, filter_In in Hc as [Hc _].
    rewrite Forall_forall in Hall. by apply Hall, list_elem_of_In. }
  rewrite echo_credentials_run by done. simpl.
  rewrite (news_app w (logged w _) _ eq_refl).
  split; [done|]. split; [done|]. split.
  - rewrite <- (Permutation_length Hperm).
    generalize (sorted (visible show_hidden (list_credentials (session w)))).
    intros l. induction l as [|c l IH]; [done|].
    simpl. rewrite List.filter_app, length_app, IH.
    unfold credential_line. destruct show_type, show_period; done.
  - intros shown. rewrite in_flat_map. split.
    + intros (c & Hc & Hline). apply credential_line_id in Hline.
      apply list_elem_of_In in Hc. rewrite Hperm in Hc.
      apply list_elem_of_In, filter_In in Hc as [Hc Hshow].
      exists c. split; [done|]. split.
      * destruct show_hidden; [by left|right]. by destruct (is_hidden c).
      * rewrite Forall_forall in Hall.
        destruct (Hall c) as [s Hs]; [by apply list_elem_of_In|].
        rewrite Hs in *. simpl in Hline. congruence.
    + intros (c & Hc & Hshow & Hid). exists c. split.
      * apply list_elem_of_In. rewrite Hperm. apply list_elem_of_In, filter_In.
        split; [done|]. destruct Hshow as [->| ->]; [done|].
        by destruct show_hidden.
      * apply credential_line_id. by rewrite Hid.
Qed.


(** X27.  With --single and one hit, code() prints one line after the
    hit has been resolved: the value of the resolved code, or, for a Steam
    credential, what calculate_steam gives on the device as resolve left
    it. *)
Theorem code_single_prints_resolved w show_hidden query cred precomputed c w2 :
  _search (map fst (calculate_all (session w))) query show_hidden = Ok [cred] →
  getitem (calculate_all (session w)) cred = Ok precomputed →
  resolve cred precomputed (logged w [called_calculate_all]) = (Ok (Some c), w2) →
  code_unlocked show_hidden query true w
  = (Ok tt,
     logged w2
       (if is_steam cred
        then [called_calculate_steam cred;
              echo "{}" [calculate_steam (session w2) cred]]
        else [echo "{}" [value c]])).
Proof.
  intros Hhit Hitem Hres.
  unfold code_unlocked, session_calculate_all, session_calculate_steam, logged in *.
  unfold mbind, M_bind, bind, get_session, emit, lift, ret. simpl.
  rewrite Hhit. simpl. rewrite Hitem. simpl. rewrite Hres. simpl.
  destruct (is_steam cred); simpl; by rewrite <- ?app_assoc.
Qed.

End MoreProperties.

(** ** The theorems at work on the demonstration device *)

#[local] Existing Instance demo.

Lemma defect_window_rejects_prefix_of_stored_witness :
  version_lt (4, 0, 0) (version (session world_holding_AB)) = true
  ∧ version_lt (version (session world_holding_AB)) (4, 3, 5) = true
  ∧ In cred_AB (list_credentials (session world_holding_AB))
  ∧ startswith (id cred_AB) (get_id data_A) = true
  ∧ id cred_AB ≠ get_id data_A
  ∧ (_add_cred data_A false false world_holding_AB).1
    = Raise (default UnsafeOverwriteName
               (first_failure
                  (take 6 (admission_checks (session world_holding_AB) data_A false false))))
  ∧ session (_add_cred data_A false false world_holding_AB).2
    = session world_holding_AB
  ∧ puts (log (_add_cred data_A false false world_holding_AB).2)
    = puts (log world_holding_AB).
Proof.
  assert (h1 : version_lt (4, 0, 0) (version (session world_holding_AB)) = true)
    by reflexivity.
  assert (h2 : version_lt (version (session world_holding_AB)) (4, 3, 5) = true)
    by reflexivity.
  assert (h3 : In cred_AB (list_credentials (session world_holding_AB)))
    by (left; reflexivity).
  assert (h4 : startswith (id cred_AB) (get_id data_A) = true) by reflexivity.
  assert (h5 : id cred_AB ≠ get_id data_A) by (vm_compute; discriminate).
  exact (conj h1 (conj h2 (conj h3 (conj h4 (conj h5
    (defect_window_rejects_prefix_of_stored world_holding_AB data_A false false
       cred_AB h1 h2 h3 h4 h5)))))).
Defined.

Example defect_window_guard_at_work :
  (_add_cred data_A false false world_holding_AB).1 = Raise UnsafeOverwriteName
  ∧ log (_add_cred data_A false false world_holding_AB).2 = []
  ∧ (_add_cred (demo_data (as_str "A") TOTP SHA1 (as_bytes "k") 0)
       false false world_holding_AB).1 = Raise SecretTooShort
  ∧ (_add_cred data_AB false false world_holding_AB).1 = Raise Abort
  ∧ (_add_cred data_AB false true world_holding_AB).1 = Ok tt.
Proof. repeat split; vm_compute; reflexivity. Qed.

(** C1 as stated fails: on firmware (4,1,0) with the stored id "A", a
    strict prefix of the candidate id "AB", _add_cred raises nothing and
    hands the candidate to the device. *)
Lemma defect_window_admits_extension_of_stored :
  in_defect_window (version (session world_holding_A)) = true
  ∧ id cred_A = as_bytes "A"
  ∧ get_id data_AB = as_bytes "AB"
  ∧ startswith (get_id data_AB) (id cred_A) = true
  ∧ (_add_cred data_AB false false world_holding_A).1 = Ok tt
  ∧ (_add_cred data_AB false false world_holding_A).1 ≠ Raise UnsafeOverwriteName
  ∧ log (_add_cred data_AB false false world_holding_A).2
    = [called_put_credential data_AB false].
Proof. vm_compute. repeat split; discriminate. Qed.

Lemma search_show_hidden_spec_witness :
  Forall (fun c => is_Some (display_id c)) [cred_A; cred_hidden; cred_AB]
  ∧ _search [cred_A; cred_hidden; cred_AB] (as_str "AB") true
    = Ok (search_spec [cred_A; cred_hidden; cred_AB] (as_str "AB"))
  ∧ _search [cred_A; cred_hidden; cred_AB] [] true
    = Ok (if List.find (equals_query []) [cred_A; cred_hidden; cred_AB] is Some c
          then [c] else [cred_A; cred_hidden; cred_AB])
  ∧ ∀ c, NoDup (map display_id [cred_A; cred_hidden; cred_AB]) →
         In c [cred_A; cred_hidden; cred_AB] →
         display_id c = Some (as_str "AB") →
         _search [cred_A; cred_hidden; cred_AB] (as_str "AB") true = Ok [c].
Proof.
  assert (h : Forall (fun c => is_Some (display_id c)) [cred_A; cred_hidden; cred_AB])
    by (repeat constructor; eexists; reflexivity).
  exact (conj h (search_show_hidden_spec [cred_A; cred_hidden; cred_AB] (as_str "AB") h)).
Defined.

Example search_exact_match_alone :
  _search [cred_A; cred_hidden; cred_AB] (as_str "AB") true = Ok [cred_AB]
  ∧ _search [cred_A; cred_hidden; cred_AB] (as_str "ab") true
    = Ok [cred_hidden; cred_AB]
  ∧ _search [cred_A; cred_hidden; cred_AB] [] true
    = Ok [cred_A; cred_hidden; cred_AB].
Proof. repeat split; vm_compute; reflexivity. Qed.

Lemma search_excludes_hidden_witness :
  _search [cred_A; cred_hidden; cred_AB] (as_str "b") false = Ok [cred_AB]
  ∧ In cred_AB [cred_AB]
  ∧ is_hidden cred_AB = false
  ∧ ∀ h, is_hidden h = true → display_id h = Some (as_str "b") →
         _search (h :: [cred_A; cred_hidden; cred_AB]) (as_str "b") false
         = _search [cred_A; cred_hidden; cred_AB] (as_str "b") false.
Proof.
  assert (h1 : _search [cred_A; cred_hidden; cred_AB] (as_str "b") false = Ok [cred_AB])
    by reflexivity.
  assert (h2 : In cred_AB [cred_AB]) by (left; reflexivity).
  exact (conj h1 (conj h2
    (search_excludes_hidden [cred_A; cred_hidden; cred_AB] (as_str "b")
       [cred_AB] cred_AB h1 h2))).
Defined.

Example search_hidden_exact_match_skipped :
  is_hidden cred_hidden = true
  ∧ display_id cred_hidden = Some (as_str "_hidden:AB")
  ∧ _search [cred_A; cred_hidden; cred_AB] (as_str "_hidden:AB") false = Ok []
  ∧ _search [cred_A; cred_hidden; cred_AB] (as_str "_hidden:AB") true
    = Ok [cred_hidden].
Proof. repeat split; vm_compute; reflexivity. Qed.


Example resolve_hotp_when_calculation_fails :
  oath_type cred_hotp = HOTP
  ∧ getitem (calculate_all (session failing_world)) cred_hotp = Ok None
  ∧ calculate_code (session failing_world) cred_hotp
    = Raise (ApduError COMMAND_ABORTED)
  ∧ (resolve cred_hotp None failing_world).1 = Ok None
  ∧ log (resolve cred_hotp None failing_world).2
    = [prompt_timeout; called_calculate_code cred_hotp]
  ∧ (code_unlocked false (as_str "bank") true failing_world).1
    = Raise (OtherException "AttributeError")
  ∧ log (code_unlocked false (as_str "bank") false failing_world).2
    = [called_calculate_all; prompt_timeout; called_calculate_code cred_hotp;
       echo "{:<}  {:>}" [as_str "bank"; as_str "[HOTP Credential]"]].
Proof. repeat split; vm_compute; reflexivity. Qed.

Lemma unlock_of_unprotected_store_witness :
  locked (session world_holding_A) = false
  ∧ (_init_session (Some (as_str "hunter2")) true "Enter the password" world_holding_A).1
    = (if given (Some (as_str "hunter2")) then Raise UnexpectedPassword else Ok tt)
  ∧ session (_init_session (Some (as_str "hunter2")) true "Enter the password" world_holding_A).2
    = session world_holding_A
  ∧ log (_init_session (Some (as_str "hunter2")) true "Enter the password" world_holding_A).2
    = log world_holding_A
  ∧ disk (_init_session (Some (as_str "hunter2")) true "Enter the password" world_holding_A).2
    = disk world_holding_A
  ∧ default ∅ (keys (_init_session (Some (as_str "hunter2")) true "Enter the password" world_holding_A).2)
    = default ∅ (keys world_holding_A).
Proof.
  assert (h : locked (session world_holding_A) = false) by reflexivity.
  exact (conj h
    (unlock_of_unprotected_store world_holding_A (Some (as_str "hunter2")) true
       "Enter the password" h)).
Defined.

Example example_unlock_unprotected :
  (_init_session (Some (as_str "hunter2")) true "Enter the password" world_holding_A).1
  = Raise UnexpectedPassword
  ∧ (_init_session None true "Enter the password" world_holding_A).1 = Ok tt
  ∧ (_init_session (Some []) true "Enter the password" world_holding_A).1 = Ok tt.
Proof. repeat split; vm_compute; reflexivity. Qed.

Lemma validation_failure_is_authentication_failed_witness :
  validate (session locked_world) (as_bytes "Tr0ub4dor&3")
  = Raise (ApduError (SW_other 0x6A80))
  ∧ _validate (as_bytes "Tr0ub4dor&3") true locked_world
    = (Raise AuthenticationFailed,
       logged locked_world [called_validate (as_bytes "Tr0ub4dor&3")])
  ∧ ∀ w2 remember2 e2,
      validate (session w2) (as_bytes "Tr0ub4dor&3") = Raise e2 →
      (_validate (as_bytes "Tr0ub4dor&3") remember2 w2).1
      = (_validate (as_bytes "Tr0ub4dor&3") true locked_world).1.
Proof.
  assert (h : validate (session locked_world) (as_bytes "Tr0ub4dor&3")
              = Raise (ApduError (SW_other 0x6A80))) by reflexivity.
  exact (conj h
    (validation_failure_is_authentication_failed locked_world
       (as_bytes "Tr0ub4dor&3") true _ h)).
Defined.

Example unlock_with_prompted_password :
  (_init_session None true "Enter the password" locked_world).1 = Ok tt
  ∧ (keys (_init_session None true "Enter the password" locked_world).2
       ≫= lookup demo_device_id)
    = Some (hex (as_bytes "correct horse"))
  ∧ (disk (_init_session None true "Enter the password" locked_world).2
       ≫= lookup demo_device_id)
    = Some (hex (as_bytes "correct horse"))
  ∧ (_init_session (Some (as_str "Tr0ub4dor&3")) true "Enter the password" locked_world).1
    = Raise AuthenticationFailed.
Proof. repeat split; vm_compute; reflexivity. Qed.

(** C7 does not hold of the code.  A name of 64 code points whose UTF-8
    form has 65 octets passes the name check, and the credential is handed
    to the device: the check counts code points where its message speaks of
    bytes. *)
Theorem name_of_65_bytes_is_admitted :
  len (data_name data_64_chars) = 64
  ∧ length <$> encode_utf8 (data_name data_64_chars) = Some 65%nat
  ∧ check_name data_64_chars = None
  ∧ (_add_cred data_64_chars false false world_holding_A).1 = Ok tt
  ∧ log (_add_cred data_64_chars false false world_holding_A).2
    = [called_put_credential data_64_chars false].
Proof. repeat split; vm_compute; reflexivity. Qed.

Example name_length_boundaries :
  check_name (demo_data [] TOTP SHA1 (as_bytes "kk") 0) = Some InvalidName
  ∧ check_name (demo_data (repeat 97%N 1) TOTP SHA1 (as_bytes "kk") 0) = None
  ∧ check_name (demo_data (repeat 97%N 64) TOTP SHA1 (as_bytes "kk") 0) = None
  ∧ check_name (demo_data (repeat 97%N 65) TOTP SHA1 (as_bytes "kk") 0)
    = Some InvalidName
  ∧ (_add_cred (demo_data (repeat 97%N 65) TOTP SHA1 (as_bytes "kk") 0)
       false false world_holding_A).1 = Raise InvalidName.
Proof. repeat split; vm_compute; reflexivity. Qed.

Lemma one_match_required_witness :
  _init_session None false "Enter the password" world_of_three
  = (Ok tt, with_keys world_of_three)
  ∧ _search (map fst (calculate_all (session (with_keys world_of_three))))
      (as_str "a") false = Ok [cred_A; cred_AB]
  ∧ length [cred_A; cred_AB] ≠ 1%nat
  ∧ code false (as_str "a") true None false world_of_three
    = (Raise MultipleMatches,
       logged (with_keys world_of_three)
         (called_calculate_all :: multiple_hits_report [cred_A; cred_AB]))
  ∧ _search (list_credentials (session (with_keys world_of_three)))
      (as_str "a") true = Ok [cred_A; cred_hidden; cred_AB]
  ∧ length [cred_A; cred_hidden; cred_AB] ≠ 1%nat
  ∧ delete (as_str "a") false None false world_of_three
    = (Raise MultipleMatches,
       logged (with_keys world_of_three)
         (multiple_hits_report [cred_A; cred_hidden; cred_AB])).
Proof.
  assert (h : _init_session None false "Enter the password" world_of_three
              = (Ok tt, with_keys world_of_three)) by reflexivity.
  assert (h1 : _search (map fst (calculate_all (session (with_keys world_of_three))))
                 (as_str "a") false = Ok [cred_A; cred_AB]) by reflexivity.
  assert (h2 : length [cred_A; cred_AB] ≠ 1%nat) by (simpl; lia).
  assert (h3 : _search (list_credentials (session (with_keys world_of_three)))
                 (as_str "a") true = Ok [cred_A; cred_hidden; cred_AB])
    by reflexivity.
  assert (h4 : length [cred_A; cred_hidden; cred_AB] ≠ 1%nat) by (simpl; lia).
  pose proof (one_match_required world_of_three None false
                (with_keys world_of_three) h) as [Hcode Hdelete].
  exact (conj h (conj h1 (conj h2
    (conj (Hcode false (as_str "a") [cred_A; cred_AB] h1 h2)
       (conj h3 (conj h4
          (Hdelete (as_str "a") false [cred_A; cred_hidden; cred_AB] h3 h4))))))).
Defined.

Example code_single_and_delete_each_on_its_search :
  _search (map fst (calculate_all (session world_of_three))) (as_str "a") false
  = Ok [cred_A; cred_AB]
  ∧ (code false (as_str "a") true None false world_of_three).1
    = Raise MultipleMatches
  ∧ log (code false (as_str "a") true None false world_of_three).2
    = called_calculate_all :: multiple_hits_report [cred_A; cred_AB]
  ∧ _search (map fst (calculate_all (session world_of_three)))
      (as_str "_hidden:AB") false = Ok []
  ∧ _search (list_credentials (session world_of_three)) (as_str "_hidden:AB") true
    = Ok [cred_hidden]
  ∧ (code false (as_str "_hidden:AB") true None false world_of_three).1
    = Raise NoMatch.
Proof. repeat split; vm_compute; reflexivity. Qed.

Example multiple_hits_after_unlock_with_remember :
  (disk locked_world_of_three ≫= lookup demo_device_id) = None
  ∧ (code false (as_str "a") true None true locked_world_of_three).1
  = Raise MultipleMatches
  ∧ (delete (as_str "a") false None true locked_world_of_three).1
    = Raise MultipleMatches
  ∧ session (delete (as_str "a") false None true locked_world_of_three).2
    = session locked_world_of_three
  ∧ (disk (delete (as_str "a") false None true locked_world_of_three).2
       ≫= lookup demo_device_id)
    = Some (hex (as_bytes "correct horse"))
  ∧ (disk (code false (as_str "a") true None true locked_world_of_three).2
       ≫= lookup demo_device_id)
    = Some (hex (as_bytes "correct horse")).
Proof. repeat split; vm_compute; reflexivity. Qed.

(** C9 as stated fails for delete(): when the search finds nothing, the
    command does not abort; it prints a line and returns normally. *)
Lemma delete_without_match_returns_normally :
  _search (list_credentials (session world_of_three)) (as_str "zz") true = Ok []
  ∧ ¬ aborted (delete_unlocked (as_str "zz") false world_of_three).1
  ∧ ¬ aborted (delete (as_str "zz") false None false world_of_three).1
  ∧ log (delete (as_str "zz") false None false world_of_three).2
    = [echo "No matches, nothing to be done." []].
Proof.
  split; [reflexivity|]. split; [|split; [|reflexivity]].
  - intros [e He]. vm_compute in He. discriminate.
  - intros [e He]. vm_compute in He. discriminate.
Qed.

Example example_multiple_hits_report :
  (delete_unlocked (as_str "a") true world_of_three).1 = Raise MultipleMatches
  ∧ log (delete_unlocked (as_str "a") true world_of_three).2
    = [ echo_err "Error: Multiple matches, please make the query more specific." [];
        echo_err EmptyString [];
        echo_err "{}" [as_str "A"];
        echo_err "{}" [as_str "_hidden:AB"];
        echo_err "{}" [as_str "AB"] ]
  ∧ session (delete_unlocked (as_str "a") true world_of_three).2
    = session world_of_three
  ∧ (code_unlocked false (as_str "zz") true world_of_three).1 = Raise NoMatch.
Proof. repeat split; vm_compute; reflexivity. Qed.


Example delete_hidden_runs :
  list_credentials (session (delete_unlocked (as_str "_hidden:AB") true world_of_three).2)
  = [cred_A; cred_AB]
  ∧ log (delete_unlocked (as_str "_hidden:AB") true world_of_three).2
    = [called_delete_credential (id cred_hidden);
       echo "Deleted {}." [as_str "_hidden:AB"]].
Proof. repeat split; vm_compute; reflexivity. Qed.

(** ** The further properties at work on the demonstration device *)

#[local] Existing Instance demo_administration.

Lemma validate_success_witness :
  (validate (session locked_world) demo_key = Ok locked_yubikey)
  ∧ (true = true
     → settings_write
         (Some (<[device_id locked_yubikey:=hex demo_key]> (default ∅ (keys locked_world)))) =
       None)
  ∧ ((_validate demo_key true locked_world).1 = Ok ()
     ∧ session (_validate demo_key true locked_world).2 = locked_yubikey
       ∧ remembered (_validate demo_key true locked_world).2 (device_id locked_yubikey) =
         (if true then Some (hex demo_key) else remembered locked_world (device_id locked_yubikey))
         ∧ (∀ other : str,
              other ≠ device_id locked_yubikey
              → remembered (_validate demo_key true locked_world).2 other =
                remembered locked_world other)
           ∧ disk (_validate demo_key true locked_world).2 =
             (if true then keys (_validate demo_key true locked_world).2 else disk locked_world)).
Proof.
  assert (h1 :
    (validate (session locked_world) demo_key = Ok locked_yubikey))
    by reflexivity.
  assert (h2 :
    (true = true
     → settings_write
         (Some (<[device_id locked_yubikey:=hex demo_key]> (default ∅ (keys locked_world)))) =
       None))
    by (intros _; reflexivity).
  exact
    (conj h1 (conj h2 (validate_success locked_world demo_key true locked_yubikey h1 h2))).
Defined.

Lemma remembered_key_unlocks_later_witness :
  (validate (session locked_world) demo_key = Ok locked_yubikey)
  ∧ (settings_write (Some (<[device_id locked_yubikey:=hex demo_key]> (default ∅ (keys locked_world)))) =
     None)
  ∧ (locked locked_yubikey = true)
  ∧ (_init_session None false "Enter the password" (_validate demo_key true locked_world).2 =
     _validate demo_key false (_validate demo_key true locked_world).2).
Proof.
  assert (h1 :
    (validate (session locked_world) demo_key = Ok locked_yubikey))
    by reflexivity.
  assert (h2 :
    (settings_write (Some (<[device_id locked_yubikey:=hex demo_key]> (default ∅ (keys locked_world)))) =
     None))
    by reflexivity.
  assert (h3 :
    (locked locked_yubikey = true))
    by reflexivity.
  exact
    (conj h1 (conj h2 (conj h3 (remembered_key_unlocks_later locked_world demo_key locked_yubikey false "Enter the password" h1 h2 h3)))).
Defined.

Lemma search_returns_sublist_witness :
  (_search [cred_A; cred_hidden; cred_AB] (as_str "a") false = Ok [cred_A; cred_AB])
  ∧ ([cred_A; cred_AB] `sublist_of` [cred_A; cred_hidden; cred_AB]).
Proof.
  assert (h1 :
    (_search [cred_A; cred_hidden; cred_AB] (as_str "a") false = Ok [cred_A; cred_AB]))
    by reflexivity.
  exact
    (conj h1 (search_returns_sublist [cred_A; cred_hidden; cred_AB] (as_str "a") false [cred_A; cred_AB] h1)).
Defined.

Lemma search_hides_by_filtering_witness :
  (Forall (λ c : Credential, is_Some (display_id c)) [cred_A; cred_hidden; cred_AB])
  ∧ (_search [cred_A; cred_hidden; cred_AB] (as_str "a") false =
     _search (List.filter (λ c : Credential, negb (is_hidden c)) [cred_A; cred_hidden; cred_AB])
       (as_str "a") true).
Proof.
  assert (h1 :
    (Forall (λ c : Credential, is_Some (display_id c)) [cred_A; cred_hidden; cred_AB]))
    by (repeat constructor; eexists; reflexivity).
  exact
    (conj h1 (search_hides_by_filtering [cred_A; cred_hidden; cred_AB] (as_str "a") h1)).
Defined.

Lemma search_raises_on_ill_formed_id_witness :
  (Forall (λ c' : Credential, is_Some (display_id c') ∧ display_id c' ≠ Some (as_str "AB")) [cred_A])
  ∧ (display_id cred_ill_formed = None)
  ∧ (_search ([cred_A] ++ [cred_ill_formed; cred_AB]) (as_str "AB") false = Raise UnicodeDecodeError).
Proof.
  assert (h1 :
    (Forall (λ c' : Credential, is_Some (display_id c') ∧ display_id c' ≠ Some (as_str "AB")) [cred_A]))
    by (repeat constructor; [eexists; reflexivity|vm_compute; discriminate]).
  assert (h2 :
    (display_id cred_ill_formed = None))
    by reflexivity.
  exact
    (conj h1 (conj h2 (search_raises_on_ill_formed_id [cred_A] cred_ill_formed [cred_AB] (as_str "AB") false h1 h2))).
Defined.

Lemma resolve_recomputes_witness :
  (oath_type cred_hotp = HOTP ∨ @None Code = None)
  ∧ (calculate_code (session world_of_three) cred_hotp =
     Ok ({| value := as_str "123456"; valid_from := 0; valid_to := 30 |}, session world_of_three))
  ∧ ((resolve cred_hotp None world_of_three).1 =
     Ok (Some {| value := as_str "123456"; valid_from := 0; valid_to := 30 |})
     ∧ session (resolve cred_hotp None world_of_three).2 = session world_of_three).
Proof.
  assert (h1 :
    (oath_type cred_hotp = HOTP ∨ @None Code = None))
    by (left; reflexivity).
  assert (h2 :
    (calculate_code (session world_of_three) cred_hotp =
     Ok ({| value := as_str "123456"; valid_from := 0; valid_to := 30 |}, session world_of_three)))
    by reflexivity.
  exact
    (conj h1 (conj h2 (resolve_recomputes world_of_three cred_hotp None {| value := as_str "123456"; valid_from := 0; valid_to := 30 |} (session world_of_three) h1 h2))).
Defined.

Lemma resolve_touch_timeout_witness :
  (oath_type cred_hotp = HOTP ∨ @None Code = None)
  ∧ (calculate_code (session untouched_world) cred_hotp =
     Raise (ApduError SECURITY_CONDITION_NOT_SATISFIED))
  ∧ ((resolve cred_hotp None untouched_world).1 = Raise TouchTimeout
     ∧ session (resolve cred_hotp None untouched_world).2 = session untouched_world
       ∧ head (news untouched_world (resolve cred_hotp None untouched_world).2) =
         Some
           (if is_true (touch_required cred_hotp)
            then prompt_for_touch
            else
             if bool_decide (oath_type cred_hotp = HOTP)
             then prompt_timeout
             else called_calculate_code cred_hotp)).
Proof.
  assert (h1 :
    (oath_type cred_hotp = HOTP ∨ @None Code = None))
    by (left; reflexivity).
  assert (h2 :
    (calculate_code (session untouched_world) cred_hotp =
     Raise (ApduError SECURITY_CONDITION_NOT_SATISFIED)))
    by reflexivity.
  exact
    (conj h1 (conj h2 (resolve_touch_timeout untouched_world cred_hotp None h1 h2))).
Defined.

Lemma code_lists_without_calculating_witness :
  (_search (map fst (calculate_all (session world_of_three))) (as_str "a") false =
     Ok [cred_A; cred_AB])
  ∧ (length [cred_A; cred_AB] ≠ 1%nat)
  ∧ (session (code_unlocked false (as_str "a") false world_of_three).2 = session world_of_three
     ∧ List.filter is_calculation
         (news world_of_three (code_unlocked false (as_str "a") false world_of_three).2) =
       []).
Proof.
  assert (h1 :
    (_search (map fst (calculate_all (session world_of_three))) (as_str "a") false =
     Ok [cred_A; cred_AB]))
    by reflexivity.
  assert (h2 :
    (length [cred_A; cred_AB] ≠ 1%nat))
    by (simpl; lia).
  exact
    (conj h1 (conj h2 (code_lists_without_calculating world_of_three false (as_str "a") [cred_A; cred_AB] h1 h2))).
Defined.

Lemma delete_declined_witness :
  (_search (list_credentials (session world_of_three)) (as_str "AB") true = Ok [cred_AB])
  ∧ (click_confirm "Delete credential: {} ?" [default [] (display_id cred_AB)] = false)
  ∧ (delete_unlocked (as_str "AB") false world_of_three =
     (Ok (),
      logged world_of_three
        [asked "Delete credential: {} ?" [default [] (display_id cred_AB)];
         echo "Deletion aborted by user." []])).
Proof.
  assert (h1 :
    (_search (list_credentials (session world_of_three)) (as_str "AB") true = Ok [cred_AB]))
    by reflexivity.
  assert (h2 :
    (click_confirm "Delete credential: {} ?" [default [] (display_id cred_AB)] = false))
    by reflexivity.
  exact
    (conj h1 (conj h2 (delete_declined world_of_three (as_str "AB") cred_AB h1 h2))).
Defined.

Lemma wrong_password_stops_commands_witness :
  (locked (session locked_world) = true)
  ∧ (given (Some (as_str "Tr0ub4dor&3")) = true)
  ∧ (validate (session locked_world)
       (derive_key (session locked_world) (default [] (Some (as_str "Tr0ub4dor&3")))) =
     Raise (ApduError (SW_other 27264)))
  ∧ ((∀ (query : str) (force r : bool),
        delete query force (Some (as_str "Tr0ub4dor&3")) r locked_world =
        (Raise AuthenticationFailed,
         logged (with_keys locked_world)
           [called_derive_key (default [] (Some (as_str "Tr0ub4dor&3")));
            called_validate
              (derive_key (session locked_world) (default [] (Some (as_str "Tr0ub4dor&3"))))]))
     ∧ (∀ (show_hidden : bool) (query : str) (single r : bool),
          code show_hidden query single (Some (as_str "Tr0ub4dor&3")) r locked_world =
          (Raise AuthenticationFailed,
           logged (with_keys locked_world)
             [called_derive_key (default [] (Some (as_str "Tr0ub4dor&3")));
              called_validate
                (derive_key (session locked_world) (default [] (Some (as_str "Tr0ub4dor&3"))))]))
       ∧ (∀ (key : bytes) (n : str) (i : option str) (p : Z) (t : OATH_TYPE) 
            (g : Z) (touch : bool) (a : HASH_ALGORITHM) (c : Z) (force r : bool),
            add_with_secret key n i p t g touch a c force (Some (as_str "Tr0ub4dor&3")) r locked_world =
            (Raise AuthenticationFailed,
             logged (with_keys locked_world)
               [called_derive_key (default [] (Some (as_str "Tr0ub4dor&3")));
                called_validate
                  (derive_key (session locked_world) (default [] (Some (as_str "Tr0ub4dor&3"))))]))
         ∧ (∀ show_hidden show_type show_period r : bool,
              list_accounts show_hidden show_type show_period (Some (as_str "Tr0ub4dor&3")) r
                locked_world =
              (Raise AuthenticationFailed,
               logged (with_keys locked_world)
                 [called_derive_key (default [] (Some (as_str "Tr0ub4dor&3")));
                  called_validate
                    (derive_key (session locked_world) (default [] (Some (as_str "Tr0ub4dor&3"))))]))
           ∧ ∀ (clear : bool) (new_password : option str),
               clear && given new_password = false
               → change (Some (as_str "Tr0ub4dor&3")) clear new_password locked_world =
                 (Raise AuthenticationFailed,
                  logged (with_keys locked_world)
                    [called_derive_key (default [] (Some (as_str "Tr0ub4dor&3")));
                     called_validate
                       (derive_key (session locked_world) (default [] (Some (as_str "Tr0ub4dor&3"))))])).
Proof.
  assert (h1 :
    (locked (session locked_world) = true))
    by reflexivity.
  assert (h2 :
    (given (Some (as_str "Tr0ub4dor&3")) = true))
    by reflexivity.
  assert (h3 :
    (validate (session locked_world)
       (derive_key (session locked_world) (default [] (Some (as_str "Tr0ub4dor&3")))) =
     Raise (ApduError (SW_other 27264))))
    by reflexivity.
  exact
    (conj h1 (conj h2 (conj h3 (wrong_password_stops_commands locked_world (Some (as_str "Tr0ub4dor&3")) (ApduError (SW_other 0x6A80)) h1 h2 h3)))).
Defined.

Lemma reset_declined_witness :
  (click_confirm reset_question [] = false)
  ∧ (reset false remembering_world = (Raise Abort, logged remembering_world [asked reset_question []])).
Proof.
  assert (h1 :
    (click_confirm reset_question [] = false))
    by reflexivity.
  exact
    (conj h1 (reset_declined remembering_world h1)).
Defined.

Lemma reset_forgets_old_key_witness :
  (true = true ∨ click_confirm reset_question [] = true)
  ∧ (is_Some (remembered remembering_world (device_id (session remembering_world)))
     → settings_write
         (Some
            (base.delete (device_id (session remembering_world)) (default ∅ (keys remembering_world)))) =
       None)
  ∧ ((reset true remembering_world).1 = Ok ()
     ∧ session (reset true remembering_world).2 = session_reset (session remembering_world)
       ∧ remembered (reset true remembering_world).2 (device_id (session remembering_world)) = None
         ∧ (∀ other : str,
              other ≠ device_id (session remembering_world)
              → remembered (reset true remembering_world).2 other = remembered remembering_world other)
           ∧ List.filter is_write (news remembering_world (reset true remembering_world).2) =
             (if
               bool_decide
                 (is_Some (remembered remembering_world (device_id (session remembering_world))))
              then [called_settings_write]
              else [])).
Proof.
  assert (h1 :
    (true = true ∨ click_confirm reset_question [] = true))
    by (left; reflexivity).
  assert (h2 :
    (is_Some (remembered remembering_world (device_id (session remembering_world)))
     → settings_write
         (Some
            (base.delete (device_id (session remembering_world)) (default ∅ (keys remembering_world)))) =
       None))
    by (intros _; reflexivity).
  exact
    (conj h1 (conj h2 (reset_forgets_old_key remembering_world true h1 h2))).
Defined.

Lemma change_clear_forgets_key_witness :
  (is_Some (remembered remembering_world (device_id (session remembering_world)))
     → settings_write
         (Some
            (base.delete (device_id (session remembering_world)) (default ∅ (keys remembering_world)))) =
       None)
  ∧ ((change_unlocked true None remembering_world).1 = Ok ()
     ∧ session (change_unlocked true None remembering_world).2 =
       session_unset_key (session remembering_world)
       ∧ remembered (change_unlocked true None remembering_world).2
           (device_id (session remembering_world)) =
         None
         ∧ (∀ other : str,
              other ≠ device_id (session remembering_world)
              → remembered (change_unlocked true None remembering_world).2 other =
                remembered remembering_world other)
           ∧ List.filter is_write
               (news remembering_world (change_unlocked true None remembering_world).2) =
             (if
               bool_decide
                 (is_Some (remembered remembering_world (device_id (session remembering_world))))
              then [called_settings_write]
              else [])).
Proof.
  assert (h1 :
    (is_Some (remembered remembering_world (device_id (session remembering_world)))
     → settings_write
         (Some
            (base.delete (device_id (session remembering_world)) (default ∅ (keys remembering_world)))) =
       None))
    by (intros _; reflexivity).
  exact
    (conj h1 (change_clear_forgets_key remembering_world None h1)).
Defined.

Lemma change_updates_remembered_key_witness :
  (is_Some (remembered remembering_world (device_id (session remembering_world)))
     → settings_write
         (Some
            (<[device_id (session remembering_world):=hex
                                                        (derive_key (session remembering_world)
                                                           (supplied_or_typed
                                                              (Some (as_str "new secret"))
                                                              "Enter the new password"))]>
               (default ∅ (keys remembering_world)))) =
       None)
  ∧ ((change_unlocked false (Some (as_str "new secret")) remembering_world).1 = Ok ()
     ∧ session (change_unlocked false (Some (as_str "new secret")) remembering_world).2 =
       session_set_key (session remembering_world)
         (derive_key (session remembering_world)
            (supplied_or_typed (Some (as_str "new secret")) "Enter the new password"))
       ∧ remembered (change_unlocked false (Some (as_str "new secret")) remembering_world).2
           (device_id (session remembering_world)) =
         (if
           bool_decide (is_Some (remembered remembering_world (device_id (session remembering_world))))
          then
           Some
             (hex
                (derive_key (session remembering_world)
                   (supplied_or_typed (Some (as_str "new secret")) "Enter the new password")))
          else None)
         ∧ (∀ other : str,
              other ≠ device_id (session remembering_world)
              → remembered (change_unlocked false (Some (as_str "new secret")) remembering_world).2
                  other =
                remembered remembering_world other)
           ∧ List.filter is_write
               (news remembering_world
                  (change_unlocked false (Some (as_str "new secret")) remembering_world).2) =
             (if
               bool_decide
                 (is_Some (remembered remembering_world (device_id (session remembering_world))))
              then [called_settings_write]
              else [])).
Proof.
  assert (h1 :
    (is_Some (remembered remembering_world (device_id (session remembering_world)))
     → settings_write
         (Some
            (<[device_id (session remembering_world):=hex
                                                        (derive_key (session remembering_world)
                                                           (supplied_or_typed
                                                              (Some (as_str "new secret"))
                                                              "Enter the new password"))]>
               (default ∅ (keys remembering_world)))) =
       None))
    by (intros _; reflexivity).
  exact
    (conj h1 (change_updates_remembered_key remembering_world (Some (as_str "new secret")) h1)).
Defined.

Lemma remember_on_unprotected_store_witness :
  (locked (session stale_world) = false)
  ∧ (is_Some (remembered stale_world (device_id (session stale_world)))
     → settings_write
         (Some (base.delete (device_id (session stale_world)) (default ∅ (keys stale_world)))) =
       None)
  ∧ ((remember None stale_world).1 = Ok ()
     ∧ session (remember None stale_world).2 = session stale_world
       ∧ remembered (remember None stale_world).2 (device_id (session stale_world)) = None
         ∧ (∀ other : str,
              other ≠ device_id (session stale_world)
              → remembered (remember None stale_world).2 other = remembered stale_world other)
           ∧ news stale_world (remember None stale_world).2 =
             (if bool_decide (is_Some (remembered stale_world (device_id (session stale_world))))
              then [called_settings_write]
              else []) ++
             [echo "This YubiKey is not password protected." []]).
Proof.
  assert (h1 :
    (locked (session stale_world) = false))
    by reflexivity.
  assert (h2 :
    (is_Some (remembered stale_world (device_id (session stale_world)))
     → settings_write
         (Some (base.delete (device_id (session stale_world)) (default ∅ (keys stale_world)))) =
       None))
    by (intros _; reflexivity).
  exact
    (conj h1 (conj h2 (remember_on_unprotected_store stale_world None h1 h2))).
Defined.

Lemma remember_stores_validated_key_witness :
  (locked (session locked_world) = true)
  ∧ (validate (session locked_world)
       (derive_key (session locked_world) (supplied_or_typed None "Enter the password")) =
     Ok locked_yubikey)
  ∧ (settings_write
       (Some
          (<[device_id locked_yubikey:=hex
                                         (derive_key (session locked_world)
                                            (supplied_or_typed None "Enter the password"))]>
             (default ∅ (keys locked_world)))) =
     None)
  ∧ ((remember None locked_world).1 = Ok ()
     ∧ remembered (remember None locked_world).2 (device_id locked_yubikey) =
       Some (hex (derive_key (session locked_world) (supplied_or_typed None "Enter the password")))
       ∧ on_disk (remember None locked_world).2 (device_id locked_yubikey) =
         Some (hex (derive_key (session locked_world) (supplied_or_typed None "Enter the password")))).
Proof.
  assert (h1 :
    (locked (session locked_world) = true))
    by reflexivity.
  assert (h2 :
    (validate (session locked_world)
       (derive_key (session locked_world) (supplied_or_typed None "Enter the password")) =
     Ok locked_yubikey))
    by reflexivity.
  assert (h3 :
    (settings_write
       (Some
          (<[device_id locked_yubikey:=hex
                                         (derive_key (session locked_world)
                                            (supplied_or_typed None "Enter the password"))]>
             (default ∅ (keys locked_world)))) =
     None))
    by reflexivity.
  exact
    (conj h1 (conj h2 (conj h3 (remember_stores_validated_key locked_world None locked_yubikey h1 h2 h3)))).
Defined.

Lemma remember_rejected_password_witness :
  (locked (session locked_world) = true)
  ∧ (validate (session locked_world)
       (derive_key (session locked_world)
          (supplied_or_typed (Some (as_str "Tr0ub4dor&3")) "Enter the password")) =
     Raise (ApduError (SW_other 27264)))
  ∧ ((remember (Some (as_str "Tr0ub4dor&3")) locked_world).1 = Raise AuthenticationFailed
     ∧ session (remember (Some (as_str "Tr0ub4dor&3")) locked_world).2 = session locked_world
       ∧ (∀ device : str,
            remembered (remember (Some (as_str "Tr0ub4dor&3")) locked_world).2 device =
            remembered locked_world device)
         ∧ disk (remember (Some (as_str "Tr0ub4dor&3")) locked_world).2 = disk locked_world).
Proof.
  assert (h1 :
    (locked (session locked_world) = true))
    by reflexivity.
  assert (h2 :
    (validate (session locked_world)
       (derive_key (session locked_world)
          (supplied_or_typed (Some (as_str "Tr0ub4dor&3")) "Enter the password")) =
     Raise (ApduError (SW_other 27264))))
    by reflexivity.
  exact
    (conj h1 (conj h2 (remember_rejected_password locked_world (Some (as_str "Tr0ub4dor&3")) (ApduError (SW_other 0x6A80)) h1 h2))).
Defined.

Lemma forget_removes_key_witness :
  (is_Some (remembered remembering_world (device_id (session remembering_world)))
     → settings_write
         (Some
            (base.delete (device_id (session remembering_world)) (default ∅ (keys remembering_world)))) =
       None)
  ∧ ((forget remembering_world).1 = Ok ()
     ∧ session (forget remembering_world).2 = session remembering_world
       ∧ remembered (forget remembering_world).2 (device_id (session remembering_world)) = None
         ∧ (∀ other : str,
              other ≠ device_id (session remembering_world)
              → remembered (forget remembering_world).2 other = remembered remembering_world other)
           ∧ news remembering_world (forget remembering_world).2 =
             (if
               bool_decide
                 (is_Some (remembered remembering_world (device_id (session remembering_world))))
              then [called_settings_write; echo "Password forgotten." []]
              else [echo "No password stored for this YubiKey." []])).
Proof.
  assert (h1 :
    (is_Some (remembered remembering_world (device_id (session remembering_world)))
     → settings_write
         (Some
            (base.delete (device_id (session remembering_world)) (default ∅ (keys remembering_world)))) =
       None))
    by (intros _; reflexivity).
  exact
    (conj h1 (forget_removes_key remembering_world h1)).
Defined.

Lemma forget_then_unlock_asks_witness :
  (locked (session remembering_world) = true)
  ∧ (is_Some (remembered remembering_world (device_id (session remembering_world)))
     → settings_write
         (Some
            (base.delete (device_id (session remembering_world)) (default ∅ (keys remembering_world)))) =
       None)
  ∧ (List.filter is_asked
       (news (forget remembering_world).2
          (_init_session None false "Enter the password" (forget remembering_world).2).2) =
     [asked "Enter the password" []]).
Proof.
  assert (h1 :
    (locked (session remembering_world) = true))
    by reflexivity.
  assert (h2 :
    (is_Some (remembered remembering_world (device_id (session remembering_world)))
     → settings_write
         (Some
            (base.delete (device_id (session remembering_world)) (default ∅ (keys remembering_world)))) =
       None))
    by (intros _; reflexivity).
  exact
    (conj h1 (conj h2 (forget_then_unlock_asks remembering_world false "Enter the password" h1 h2))).
Defined.

Lemma clear_all_passwords_empties_file_witness :
  (settings_write None = None)
  ∧ ((_clear_all_passwords true false remembering_world).1 =
     (if negb true || false then Ok () else Raise (Exit 0))
     ∧ disk (_clear_all_passwords true false remembering_world).2 =
       (if negb true || false then disk remembering_world else None)
       ∧ session (_clear_all_passwords true false remembering_world).2 = session remembering_world
         ∧ List.filter is_write
             (news remembering_world (_clear_all_passwords true false remembering_world).2) =
           (if negb true || false
            then []
            else if disk remembering_world is Some _ then [called_settings_write] else [])).
Proof.
  assert (h1 :
    (settings_write None = None))
    by reflexivity.
  exact
    (conj h1 (clear_all_passwords_empties_file remembering_world true false h1)).
Defined.

Lemma list_prints_visible_credentials_witness :
  (Forall (λ c : Credential, is_Some (display_id c)) (list_credentials (session world_of_three)))
  ∧ (sorted (visible false (list_credentials (session world_of_three)))
     ≡ₚ visible false (list_credentials (session world_of_three)))
  ∧ ((list_unlocked false true true world_of_three).1 = Ok ()
     ∧ session (list_unlocked false true true world_of_three).2 = session world_of_three
       ∧ length
           (List.filter is_end_of_line
              (news world_of_three (list_unlocked false true true world_of_three).2)) =
         length (visible false (list_credentials (session world_of_three)))
         ∧ ∀ shown : str,
             In (echo "{}" [shown])
               (news world_of_three (list_unlocked false true true world_of_three).2)
             ↔ ∃ c : Credential,
                 In c (list_credentials (session world_of_three))
                 ∧ (false = true ∨ is_hidden c = false) ∧ display_id c = Some shown).
Proof.
  assert (h1 :
    (Forall (λ c : Credential, is_Some (display_id c)) (list_credentials (session world_of_three))))
    by (repeat constructor; eexists; reflexivity).
  assert (h2 :
    (sorted (visible false (list_credentials (session world_of_three)))
     ≡ₚ visible false (list_credentials (session world_of_three))))
    by (exact (Permutation_refl _)).
  exact
    (conj h1 (conj h2 (list_prints_visible_credentials world_of_three false true true h1 h2))).
Defined.


Lemma code_single_prints_resolved_witness :
  (_search (map fst (calculate_all (session batch_world))) (as_str "AB") false = Ok [cred_AB])
  ∧ (getitem (calculate_all (session batch_world)) cred_AB = Ok (Some batch_code))
  ∧ (resolve cred_AB (Some batch_code) (logged batch_world [called_calculate_all]) =
     (Ok (Some batch_code), logged batch_world [called_calculate_all]))
  ∧ (code_unlocked false (as_str "AB") true batch_world =
     (Ok (),
      logged (logged batch_world [called_calculate_all])
        (if is_steam cred_AB
         then
          [called_calculate_steam cred_AB;
           echo "{}" [calculate_steam (session (logged batch_world [called_calculate_all])) cred_AB]]
         else [echo "{}" [value batch_code]]))).
Proof.
  assert (h1 :
    (_search (map fst (calculate_all (session batch_world))) (as_str "AB") false = Ok [cred_AB]))
    by reflexivity.
  assert (h2 :
    (getitem (calculate_all (session batch_world)) cred_AB = Ok (Some batch_code)))
    by reflexivity.
  assert (h3 :
    (resolve cred_AB (Some batch_code) (logged batch_world [called_calculate_all]) =
     (Ok (Some batch_code), logged batch_world [called_calculate_all])))
    by reflexivity.
  exact
    (conj h1 (conj h2 (conj h3 (code_single_prints_resolved batch_world false (as_str "AB") cred_AB (Some batch_code) batch_code (logged batch_world [called_calculate_all]) h1 h2 h3)))).
Defined.

Lemma validate_write_failure_witness :
  @validate demo_unwritable (session unwritable_world) demo_key = Ok locked_yubikey
  ∧ @settings_write demo_unwritable
      (Some (<[@device_id demo_unwritable locked_yubikey := hex demo_key]>
               (default ∅ (keys unwritable_world))))
    = Some (OtherException "PermissionError")
  ∧ (@_validate demo_unwritable demo_key true unwritable_world).1
    = Raise AuthenticationFailed
  ∧ session (@_validate demo_unwritable demo_key true unwritable_world).2
    = locked_yubikey
  ∧ @remembered demo_unwritable
      (@_validate demo_unwritable demo_key true unwritable_world).2
      (@device_id demo_unwritable locked_yubikey)
    = Some (hex demo_key)
  ∧ disk (@_validate demo_unwritable demo_key true unwritable_world).2
    = disk unwritable_world.
Proof.
  assert (h1 : @validate demo_unwritable (session unwritable_world) demo_key
               = Ok locked_yubikey) by reflexivity.
  assert (h2 : @settings_write demo_unwritable
                 (Some (<[@device_id demo_unwritable locked_yubikey := hex demo_key]>
                          (default ∅ (keys unwritable_world))))
               = Some (OtherException "PermissionError")) by reflexivity.
  exact (conj h1 (conj h2
    (@validate_write_failure demo_unwritable unwritable_world demo_key
       locked_yubikey (OtherException "PermissionError") h1 h2))).
Defined.


End Oath.
